(** * nqs_time_evolution: the notebook's helper functions, operators and
      time-evolution driver, embedded in Rocq.

    Conventions of the embedding.
    - Python [float] values are idealised as exact rationals ([Q]); a float
      literal such as [1e-3] is the rational it denotes.  Python [complex]
      values are pairs of rationals.  The statements on this idealisation
      are statements in exact arithmetic.  Module [Rounded] at the end
      repeats the loop on binary64 floats, with rounding, infinities and
      NaN.
    - Objects of the jVMC library (the stepper, the TDVP equation, the
      sampler, the network) are external: their methods are section variables
      and their mutable state is threaded explicitly.
    - A Python exception is a [None] result.  In the driver section only
      the stepper raises and every write to disk succeeds; modules [Fs] and
      [Rounded] let every call fail. *)

From Stdlib Require Import QArith Qround ZArith List String Ascii Lia Lqa Bool.
From Stdlib Require Import DecimalString DecimalNat Qabs.
Import ListNotations.

Open Scope Q_scope.

(** ** Python built-ins used by the notebook *)

Module Py.

(** [range(n)] *)
Definition range (n : nat) : list nat := seq 0 n.

(** [str(n)] for a non-negative [int]. *)
Definition str_int (n : nat) : string :=
  NilZero.string_of_uint (Nat.to_uint n).

(** The least number of fractional digits, from [k] on, that writes
    [z / d] exactly. *)
Fixpoint find_scale (fuel k : nat) (z d : Z) : nat :=
  match fuel with
  | O => k
  | S fuel' =>
      if ((z * 10 ^ Z.of_nat k) mod d =? 0)%Z then k
      else find_scale fuel' (S k) z d
  end.

Definition pad_left (k : nat) (s : string) : string :=
  (string_of_list_ascii (repeat "0"%char (k - String.length s)) ++ s)%string.

(** [str(x)] for a float that Python prints in positional notation with
    between one and sixteen fractional digits, such as [0.3], [0.25] and
    [2.0]. *)
Definition str_float (q : Q) : string :=
  let z := Z.abs (Qnum q) in
  let d := Zpos (Qden q) in
  let k := find_scale 16 1 z d in
  let digits := (z * 10 ^ Z.of_nat k / d)%Z in
  ((if (Qnum q <? 0)%Z then "-" else "") ++
   str_int (Z.to_nat (digits / 10 ^ Z.of_nat k)) ++ "." ++
   pad_left k (str_int (Z.to_nat (digits mod 10 ^ Z.of_nat k))))%string.

(** *** Floats with their rounding

    A Python float is an IEEE 754 binary64 number: a rational, an infinity
    or NaN.  The sign of zero is not kept; no statement of the notebook
    modelled here divides by a float. *)
Inductive float : Type :=
| Fin (q : Q)
| PInf
| NInf
| NaN.

(** The positive rational [n / d] rounded to the nearest number
    [m * 2 ^ e] with [m < 2 ^ 53] and [-1074 <= e], ties to even. *)
Definition round_pos (n d : Z) : Q :=
  let k := (Z.log2 n - Z.log2 d)%Z in
  let above := if (0 <=? k)%Z then (d * 2 ^ k <=? n)%Z
               else (d <=? n * 2 ^ (- k))%Z in
  let e0 := if above then k else (k - 1)%Z in
  let e := Z.max (e0 - 52) (-1074) in
  let num := if (0 <=? e)%Z then n else (n * 2 ^ (- e))%Z in
  let den := if (0 <=? e)%Z then (d * 2 ^ e)%Z else d in
  let m0 := (num / den)%Z in
  let r := (num mod den)%Z in
  let m := if (2 * r <? den)%Z then m0
           else if (den <? 2 * r)%Z then (m0 + 1)%Z
                else if Z.even m0 then m0 else (m0 + 1)%Z in
  Qred (if (0 <=? e)%Z then inject_Z (m * 2 ^ e)
        else Qmake m (Z.to_pos (2 ^ (- e)))).

Definition round_float (q : Q) : Q :=
  match Qnum q with
  | Z0 => 0
  | Zpos p => round_pos (Zpos p) (Zpos (Qden q))
  | Zneg p => - round_pos (Zpos p) (Zpos (Qden q))
  end.

(** The largest finite float, [(2 ^ 53 - 1) * 2 ^ 971]. *)
Definition max_float : Q := inject_Z ((2 ^ 53 - 1) * 2 ^ 971).

(** The float nearest to a rational, as for a literal such as [1e-3] or for
    the exact result of an operation; past [max_float] it is an infinity. *)
Definition of_Q (q : Q) : float :=
  let r := round_float q in
  if Qle_bool (Qabs r) max_float then Fin r
  else if Qle_bool 0 r then PInf else NInf.

Definition float_neg (a : float) : float :=
  match a with
  | Fin x => Fin (- x)
  | PInf => NInf
  | NInf => PInf
  | NaN => NaN
  end.

(** [a + b] *)
Definition float_add (a b : float) : float :=
  match a, b with
  | NaN, _ | _, NaN => NaN
  | PInf, NInf | NInf, PInf => NaN
  | PInf, _ | _, PInf => PInf
  | NInf, _ | _, NInf => NInf
  | Fin x, Fin y => of_Q (x + y)
  end.

(** [a - b] *)
Definition float_sub (a b : float) : float := float_add a (float_neg b).

(** [a < b] and [a <= b]: false when either side is NaN. *)
Definition float_ltb (a b : float) : bool :=
  match a, b with
  | NaN, _ | _, NaN => false
  | _, NInf => false
  | PInf, _ => false
  | NInf, _ => true
  | Fin _, PInf => true
  | Fin x, Fin y => negb (Qle_bool y x)
  end.

Definition float_leb (a b : float) : bool :=
  match a, b with
  | NaN, _ | _, NaN => false
  | NInf, _ => true
  | _, PInf => true
  | _, NInf => false
  | PInf, _ => false
  | Fin x, Fin y => Qle_bool x y
  end.

(** [x < y] on floats. *)
Definition ltb (x y : Q) : bool := negb (Qle_bool y x).

(** A Python number as the notebook writes it: [1.0] is a float, [1.j] a
    complex with real part zero. *)
Inductive num : Type :=
| Float (x : Q)
| Complex (re im : Q).

End Py.

(** ** Complex numbers and vectors (jax.numpy on 1-D arrays) *)

Module Cx.

Definition C : Type := (Q * Q)%type.

Definition re (z : C) : Q := fst z.
Definition im (z : C) : Q := snd z.
Definition zero : C := (0, 0).
Definition add (a b : C) : C := (re a + re b, im a + im b).
Definition sub (a b : C) : C := (re a - re b, im a - im b).
Definition mul (a b : C) : C :=
  (re a * re b - im a * im b, re a * im b + im a * re b).
Definition conj (a : C) : C := (re a, - im a).
Definition of_num (x : Py.num) : C :=
  match x with
  | Py.Float r => (r, 0)
  | Py.Complex a b => (a, b)
  end.

(** Equality of complex numbers up to the representation of rationals. *)
Definition eq (a b : C) : Prop := re a == re b /\ im a == im b.

Definition Vec : Type := list C.
Definition Matrix : Type := list Vec.      (* list of rows *)

Definition zeros (n : nat) : Vec := repeat zero n.

(** [u.dot(v)] on 1-D arrays: the sum of the products, without
    conjugation. *)
Fixpoint dot (u v : Vec) : C :=
  match u, v with
  | a :: u', b :: v' => add (mul a b) (dot u' v')
  | _, _ => zero
  end.

(** Matrix times vector, row by row. *)
Definition mat_vec (M : Matrix) (v : Vec) : Vec :=
  map (fun row => dot row v) M.

Fixpoint vsub (u v : Vec) : Vec :=
  match u, v with
  | a :: u', b :: v' => sub a b :: vsub u' v'
  | _, _ => []
  end.

(** The sum of the squared moduli of the entries. *)
Fixpoint norm2 (v : Vec) : Q :=
  match v with
  | [] => 0
  | a :: v' => (re a * re a + im a * im a) + norm2 v'
  end.

End Cx.

(** ** Helper functions of the notebook *)

(** [norm_fun(v, df=lambda x: x)]:
    [jnp.real(jnp.conj(jnp.transpose(v)).dot(df(v)))].  The transpose of a
    1-D array is the array itself. *)
Definition transpose (v : Cx.Vec) : Cx.Vec := v.

Definition norm_fun (v : Cx.Vec) (df : Cx.Vec -> Cx.Vec) : Q :=
  Cx.re (Cx.dot (map Cx.conj (transpose v)) (df v)).

(** The default value of [df]. *)
Definition df_default : Cx.Vec -> Cx.Vec := fun x => x.

(** ** Operators (jVMC.operator) *)

Module Op.

(** Single-site operators [Sx(l)] and [Sz(l)]. *)
Inductive site_op : Type :=
| Sx (l : nat)
| Sz (l : nat).

(** [scal_opstr(c, (op1, op2, ...))]: an operator string with a scalar
    coefficient. *)
Record term : Type := scal_opstr { coeff : Q; ops : list site_op }.

(** [BranchFreeOperator()] is the empty sum; [add] appends a term. *)
Definition BranchFreeOperator : Type := list term.
Definition empty : BranchFreeOperator := [].
Definition add (O : BranchFreeOperator) (tm : term) : BranchFreeOperator :=
  O ++ [tm].

(** A computational basis state: one bit per site. *)
Definition config : Type := list bool.

Fixpoint flip (l : nat) (s : config) : config :=
  match s, l with
  | [], _ => []
  | b :: s', O => negb b :: s'
  | b :: s', S l' => b :: flip l' s'
  end.

(** Action of one site operator on a basis state: the image state and the
    matrix element.  [Sx] flips the spin with element 1; [Sz] is diagonal
    with elements -1 (bit 0) and +1 (bit 1). *)
Definition apply_site (o : site_op) (sm : config * Q) : config * Q :=
  let (s, m) := sm in
  match o with
  | Sx l => (flip l s, m * 1)
  | Sz l => (s, m * (if nth l s false then 1 else -1))
  end.

(** [get_s_primes] for one term: the connected state and its matrix
    element, the rightmost operator acting first. *)
Definition s_prime (tm : term) (s : config) : config * Q :=
  fold_right apply_site (s, coeff tm) (ops tm).

Fixpoint qsum (l : list Q) : Q :=
  match l with
  | [] => 0
  | x :: l' => x + qsum l'
  end.

(** The local estimator
    O_loc(s) = sum_{s'} O_{s,s'} psi(s') / psi(s). *)
Definition O_loc (O : BranchFreeOperator) (psi : config -> Q) (s : config)
  : Q :=
  qsum (map (fun tm => let (s', m) := s_prime tm s in m * (psi s' / psi s))
            O).

(** All basis states of [n] sites. *)
Fixpoint all_configs (n : nat) : list config :=
  match n with
  | O => [[]]
  | S n' => map (cons false) (all_configs n') ++
            map (cons true) (all_configs n')
  end.

(** The exact expectation value
    sum_s |psi(s)|^2 O_loc(s) / sum_s |psi(s)|^2. *)
Definition expectation (O : BranchFreeOperator) (psi : config -> Q)
           (n : nat) : Q :=
  qsum (map (fun s => psi s * psi s * O_loc O psi s) (all_configs n)) /
  qsum (map (fun s => psi s * psi s) (all_configs n)).

(** The product state with every spin along +x: all amplitudes equal. *)
Definition x_polarized (c : Q) : config -> Q := fun _ => c.

End Op.

(** ** The notebook's cells *)

Module Notebook.

Import Op.

(** [for l in range(L): X.add(scal_opstr(1. / L, (Sx(l),)))] *)
Definition build_X (L : nat) : BranchFreeOperator :=
  fold_left
    (fun X l => add X (scal_opstr (1 / inject_Z (Z.of_nat L)) [Sx l]))
    (Py.range L) empty.

(** The three [H.add] calls of one loop iteration. *)
Definition H_body (L : nat) (g h : Q) (H : BranchFreeOperator) (l : nat)
  : BranchFreeOperator :=
  let H1 := add H (scal_opstr (- 1) [Sx l; Sx ((l + 1) mod L)]) in
  let H2 := add H1 (scal_opstr (- h) [Sx l]) in
  add H2 (scal_opstr (- g) [Sz l]).

Definition build_H (L : nat) (g h : Q) : BranchFreeOperator :=
  fold_left (H_body L g h) (Py.range L) empty.

(** [H_init] of [initialize_in_X_state]. *)
Definition build_H_init (L : nat) : BranchFreeOperator :=
  fold_left (fun H l => add H (scal_opstr (- 1) [Sx l])) (Py.range L) empty.

(** The global assignments. *)
Definition L : nat := 8.
Definition width : nat := 60.
Definition g : Q := 3 # 10.
Definition h : Q := 25 # 100.
Definition X : BranchFreeOperator := build_X L.
Definition H : BranchFreeOperator := build_H L g h.
Definition H_init : BranchFreeOperator := build_H_init L.

Definition t0 : Q := 0.
Definition dt0 : Q := 1 # 1000.
Definition tmax : Q := 2.
Definition tol : Q := 1 # 10000.
Definition numSteps : nat := 200.

End Notebook.

(** ** Persistence: [save_to_disk] and [load_from_disk] *)

(** The globals the two functions read. *)
Record Globals : Type := mkGlobals { gL : nat; gg : Q; gh : Q }.

Section Persistence.

(** The pickled object, the bytes of a file, and the two pickle calls.
    [str_float] is Python's [str] on floats. *)
Variables Obj Bytes : Type.
Variable pickle_dump : Obj -> Bytes.
Variable pickle_load : Bytes -> option Obj.
Variable str_float : Q -> string.

(** The disk as the journal of completed writes, newest first.  Opening a
    file for reading finds the newest write under that name; opening with
    mode ['wb'] replaces the file. *)
Definition Disk : Type := list (string * Bytes).

Fixpoint open_rb (name : string) (d : Disk) : option Bytes :=
  match d with
  | [] => None
  | (n, b) :: d' => if String.eqb n name then Some b else open_rb name d'
  end.

Definition write_wb (name : string) (b : Bytes) (d : Disk) : Disk :=
  (name, b) :: d.

(** [fn+"L="+str(L)+"_g="+str(g)+"_h="+str(h)+".pkl"] *)
Definition file_name (G : Globals) (fn : string) : string :=
  (fn ++ "L=" ++ Py.str_int (gL G) ++ "_g=" ++ str_float (gg G) ++
      "_h=" ++ str_float (gh G) ++ ".pkl")%string.

Definition save_to_disk (G : Globals) (data : Obj) (fn : string) (d : Disk)
  : Disk :=
  write_wb (file_name G fn) (pickle_dump data) d.

(** [None] stands for the exception of [open] or of [pickle.load]. *)
Definition load_from_disk (G : Globals) (fn : string) (d : Disk)
  : option Obj :=
  match open_rb (file_name G fn) d with
  | None => None
  | Some b => pickle_load b
  end.

End Persistence.

Arguments open_rb {Bytes} name d.
Arguments write_wb {Bytes} name b d.

(** ** The TDVP equation objects (jVMC.util.TDVP) *)

Module Tdvp.

Inductive sampler_kind : Type := ExactSampler | MCSampler.

(** The keyword arguments of the constructor as the notebook passes them.
    [diagonalShift = None] is an argument left to the library's default. *)
Record TDVP : Type := mkTDVP {
  sampler : sampler_kind;
  svdTol : Q;
  rhsPrefactor : Py.num;
  makeReal : string;
  diagonalShift : option Q
}.

(** [gsEquation] of [initialize_in_X_state]:
    [TDVP(sampler, svdTol=1e-8, rhsPrefactor=1.0, makeReal='real',
          diagonalShift=10)]. *)
Definition gsEquation : TDVP :=
  {| sampler := ExactSampler;
     svdTol := 1 # 100000000;
     rhsPrefactor := Py.Float 1;
     makeReal := "real";
     diagonalShift := Some 10 |}.

(** [tdvpEquation]:
    [TDVP(sampler, svdTol=1e-8, rhsPrefactor=1.j, makeReal='imag')]. *)
Definition tdvpEquation : TDVP :=
  {| sampler := ExactSampler;
     svdTol := 1 # 100000000;
     rhsPrefactor := Py.Complex 0 1;
     makeReal := "imag";
     diagonalShift := None |}.

(** Modelled from the spec: the estimator of jVMC's TDVP class is not part
    of the notebook.  The spec says that the scalar right-hand-side
    prefactor scales the force vector F before it is returned. *)
Definition scale_force (eq : TDVP) (F : Cx.Vec) : Cx.Vec :=
  map (Cx.mul (Cx.of_num (rhsPrefactor eq))) F.

(** A prefactor is real when it is a float, purely imaginary when it is a
    complex number with real part zero and non-zero imaginary part. *)
Definition is_real (x : Py.num) : bool :=
  match x with
  | Py.Float _ => true
  | Py.Complex _ b => Qeq_bool b 0
  end.

Definition is_purely_imaginary (x : Py.num) : bool :=
  match x with
  | Py.Float _ => false
  | Py.Complex a b => Qeq_bool a 0 && negb (Qeq_bool b 0)
  end.

End Tdvp.

(** ** The regularised linear solver *)

Section Solver.

(** Modelled from the spec: [solve] belongs to jVMC and is not part of the
    notebook.  The regularised pseudo-inverse (a singular value
    decomposition, not computable over the rationals), the square root of
    the norms and the numerator of the TDVP error are parameters. *)
Variable pinv : Cx.Matrix -> Q -> Cx.Matrix.
Variable sqrtQ : Q -> Q.
Variable tdvp_deviation : Cx.Matrix -> Cx.Vec -> Cx.Vec -> Q.

(** Modelled from the spec: [diagonalShift] is added to the diagonal of S
    before inversion. *)
Fixpoint add_diag (shift : Q) (i : nat) (S : Cx.Matrix) : Cx.Matrix :=
  match S with
  | [] => []
  | row :: S' =>
      (firstn i row ++
       match skipn i row with
       | [] => []
       | d :: rest => Cx.add d (shift, 0) :: rest
       end) :: add_diag shift (Datatypes.S i) S'
  end.

Definition norm (v : Cx.Vec) : Q := sqrtQ (Cx.norm2 v).

(** Division that faults on a zero denominator. *)
Definition checked_div (a b : Q) : option Q :=
  if Qeq_bool b 0 then None else Some (a / b).

(** Modelled from the spec: [solve(S, F, diagonalShift, svdTol) ->
    (velocity, tdvpError, linearResidual)].  The velocity is the
    regularised pseudo-inverse applied to F; the linear residual is
    ||S v - F|| / ||F||; both normalised error metrics are defined as zero
    when ||F|| = 0, which is tested on the squared norm. *)
Definition solve (S : Cx.Matrix) (F : Cx.Vec) (shift svdTol : Q)
  : option (Cx.Vec * Q * Q) :=
  let v := Cx.mat_vec (pinv (add_diag shift 0 S) svdTol) F in
  if Qeq_bool (Cx.norm2 F) 0 then Some (v, 0, 0)
  else
    match checked_div (tdvp_deviation S F v) (norm F),
          checked_div (norm (Cx.vsub (Cx.mat_vec S v) F)) (norm F) with
    | Some e, Some r => Some (v, e, r)
    | _, _ => None
    end.

End Solver.

(** ** The time-evolution cell *)

Section Driver.

Import Op.

(** The external objects: the flat parameter vector of the network
    ([psi.get_parameters()]), its tree view ([psi.params.unfreeze()]), the
    adaptive stepper with its carried step size, and the remaining jVMC
    state (the TDVP equation with its stored tensor and residuals, the
    sampler). *)
Variables Params Snapshot Stepper World Bytes : Type.
Variable unfreeze : Params -> Snapshot.

(** [jVMC.util.stepper.AdaptiveHeun(timeStep=dt, tol=tol)] *)
Variable AdaptiveHeun : Q -> Q -> Stepper.

(** [tdvpEquation.S_dot], a bound method: it reads the tensor the TDVP
    object holds when it is called. *)
Variable S_dot : World -> Cx.Vec -> Cx.Vec.

(** [stepper.step(t, tdvpEquation, params, hamiltonian=H, psi=psi,
    normFunction=...)] returns the new parameters and the accepted step
    size, and updates the stepper and the TDVP object; [None] when it
    raises. *)
Variable stepper_step :
  Stepper -> World -> Q -> Params -> BranchFreeOperator ->
  (World -> Cx.Vec -> Q) -> option (Params * Q * Stepper * World).

(** [tdvpEquation.get_residuals()] *)
Variable get_residuals : World -> Q * Q.

(** [measure(observables, psi, sampler)]: the mean of every observable of
    the dictionary, by key. *)
Variable measure :
  list (string * BranchFreeOperator) -> Params -> World ->
  (string -> Q) * World.

Variable str_float : Q -> string.

(** The globals the cell reads. *)
Variables dt0 tmax tol : Q.
Variable width : nat.
Variable G : Globals.
Variable H : BranchFreeOperator.
Variable observables : list (string * BranchFreeOperator).

(** The dictionary [data]: three lists that grow at the end.  The key
    "observables" is the field [observables_]; [observables] names the
    dictionary of operators that [measure] receives. *)
Record Data : Type := mkData {
  parameters : list Snapshot;
  observables_ : list (Q * Q * Q);
  residuals : list (Q * Q * Q)
}.

Variable pickle_dump : Data -> Bytes.

Record State : Type := mkState {
  t : Q;
  dt : Q;
  psi : Params;
  stepper : Stepper;
  world : World;
  data : Data;
  disk : Disk Bytes
}.

(** [partial(norm_fun, df=tdvpEquation.S_dot)] *)
Definition normFunction (w : World) (v : Cx.Vec) : Q :=
  norm_fun v (S_dot w).

(** ["ffn_width="+str(width)+"_"] *)
Definition fn : string := ("ffn_width=" ++ Py.str_int width ++ "_")%string.

Definition save (d : Data) (dk : Disk Bytes) : Disk Bytes :=
  save_to_disk Data Bytes pickle_dump str_float G d fn dk.

(** The statements before the loop. *)
Definition initial (psi0 : Params) (w0 : World) (dk0 : Disk Bytes) : State :=
  let t := 0 in
  let dt := dt0 in
  let stepper := AdaptiveHeun dt tol in
  let (obs, w1) := measure observables psi0 w0 in
  let data :=
    {| parameters := [] ++ [unfreeze psi0];
       observables_ := [] ++ [(t, obs "energy"%string, obs "X"%string)];
       residuals := [] |} in
  {| t := t; dt := dt; psi := psi0; stepper := stepper; world := w1;
     data := data; disk := save data dk0 |}.

(** One pass through the body of [while t < tmax]. *)
Definition loop_body (st : State) : option State :=
  match stepper_step (stepper st) (world st) (t st) (psi st) H normFunction
  with
  | None => None
  | Some (dp, dt', stp', w1) =>
      let psi' := dp in
      let t' := t st + dt' in
      let (tdvpErr, linEqRes) := get_residuals w1 in
      let (obs, w2) := measure observables psi' w1 in
      let data' :=
        {| parameters := parameters (data st) ++ [unfreeze psi'];
           observables_ :=
             observables_ (data st) ++
             [(t', obs "energy"%string, obs "X"%string)];
           residuals :=
             residuals (data st) ++ [(t' - dt', tdvpErr, linEqRes)] |} in
      Some {| t := t'; dt := dt'; psi := psi'; stepper := stp';
              world := w2; data := data'; disk := disk st |}
  end.

Inductive step_result : Type :=
| Next (st : State)      (* the body ran; back to the loop test *)
| Exit                   (* the loop test failed *)
| Fault.                 (* the stepper raised *)

Definition loop_step (st : State) : step_result :=
  if Py.ltb (t st) tmax then
    match loop_body st with
    | Some st' => Next st'
    | None => Fault
    end
  else Exit.

Inductive Outcome : Type :=
| Finished (st : State)
| Raised (st : State)
| OutOfFuel (st : State).

Definition state_of (o : Outcome) : State :=
  match o with
  | Finished st | Raised st | OutOfFuel st => st
  end.

(** The [while] loop, bounded by [fuel] iterations. *)
Fixpoint run_loop (fuel : nat) (st : State) : Outcome :=
  match fuel with
  | O => OutOfFuel st
  | S fuel' =>
      match loop_step st with
      | Next st' => run_loop fuel' st'
      | Exit => Finished st
      | Fault => Raised st
      end
  end.

(** The state after [n] complete iterations, when the loop makes that
    many. *)
Fixpoint after (n : nat) (st : State) : option State :=
  match n with
  | O => Some st
  | S n' =>
      match loop_step st with
      | Next st' => after n' st'
      | _ => None
      end
  end.

(** The statement after the loop. *)
Definition final_save (st : State) : State :=
  {| t := t st; dt := dt st; psi := psi st; stepper := stepper st;
     world := world st; data := data st;
     disk := save (data st) (disk st) |}.

(** The whole cell. *)
Definition time_evolution (fuel : nat) (psi0 : Params) (w0 : World)
           (dk0 : Disk Bytes) : Outcome :=
  match run_loop fuel (initial psi0 w0 dk0) with
  | Finished st => Finished (final_save st)
  | o => o
  end.

(** The number of iterations the loop has completed. *)
Definition steps_taken (st : State) : nat := List.length (residuals (data st)).

(** Modelled from the spec: the body of the adaptive stepper belongs to
    jVMC and is not part of the notebook.  The spec says that the error
    estimate is the difference between the low- and high-order solution
    estimates, measured with the caller-supplied norm function. *)
Definition error_estimate (nf : World -> Cx.Vec -> Q) (w : World)
           (y_low y_high : Cx.Vec) : Q :=
  nf w (Cx.vsub y_high y_low).

(** *** Facts about one pass and about runs *)

Lemma ltb_true_iff (x y : Q) : Py.ltb x y = true <-> x < y.
Proof.
  unfold Py.ltb. rewrite negb_true_iff. split; intro Hxy.
  - apply Qnot_le_lt. intro Hle. apply Qle_bool_iff in Hle. congruence.
  - destruct (Qle_bool y x) eqn:E; [|reflexivity].
    apply Qle_bool_iff in E. exfalso. apply (Qlt_not_le _ _ Hxy E).
Qed.

Lemma ltb_false_iff (x y : Q) : Py.ltb x y = false <-> y <= x.
Proof.
  unfold Py.ltb. rewrite negb_false_iff. apply Qle_bool_iff.
Qed.

(** What one pass through the body does, read off [loop_body]. *)
Lemma loop_body_inv (st st' : State) :
  loop_body st = Some st' ->
  exists dp dt' stp' w1 obs w2,
    stepper_step (stepper st) (world st) (t st) (psi st) H normFunction
      = Some (dp, dt', stp', w1) /\
    measure observables dp w1 = (obs, w2) /\
    st' = {| t := t st + dt'; dt := dt'; psi := dp; stepper := stp';
             world := w2;
             data :=
               {| parameters := parameters (data st) ++ [unfreeze dp];
                  observables_ :=
                    observables_ (data st) ++
                    [(t st + dt', obs "energy"%string, obs "X"%string)];
                  residuals :=
                    residuals (data st) ++
                    [(t st + dt' - dt', fst (get_residuals w1),
                      snd (get_residuals w1))] |};
             disk := disk st |}.
Proof.
  unfold loop_body.
  destruct (stepper_step _ _ _ _ _ _) as [[[[dp dt'] stp'] w1]|];
    [|discriminate].
  destruct (get_residuals w1) as [e r] eqn:Er.
  destruct (measure observables dp w1) as [obs w2] eqn:Em.
  intro Heq. injection Heq as <-.
  exists dp, dt', stp', w1, obs, w2.
  split; [reflexivity|]. split; [exact Em|]. now rewrite Er.
Qed.

Lemma loop_step_Next (st st' : State) :
  loop_step st = Next st' -> t st < tmax /\ loop_body st = Some st'.
Proof.
  unfold loop_step. destruct (Py.ltb (t st) tmax) eqn:E; [|discriminate].
  destruct (loop_body st) eqn:B; [|discriminate].
  intro Heq. injection Heq as <-. split; [|reflexivity].
  now apply ltb_true_iff.
Qed.

Lemma loop_step_Exit (st : State) : loop_step st = Exit <-> tmax <= t st.
Proof.
  unfold loop_step. split.
  - destruct (Py.ltb (t st) tmax) eqn:E.
    + destruct (loop_body st); discriminate.
    + intros _. now apply ltb_false_iff.
  - intro Hle. apply ltb_false_iff in Hle. now rewrite Hle.
Qed.

Lemma loop_step_Fault (st : State) :
  loop_step st = Fault <->
  t st < tmax /\
  stepper_step (stepper st) (world st) (t st) (psi st) H normFunction = None.
Proof.
  unfold loop_step, loop_body. split.
  - destruct (Py.ltb (t st) tmax) eqn:E; [|discriminate].
    apply ltb_true_iff in E.
    destruct (stepper_step _ _ _ _ _ _) as [[[[dp dt'] stp'] w1]|].
    + destruct (get_residuals w1), (measure observables dp w1). discriminate.
    + intros _. split; [exact E | reflexivity].
  - intros [Hlt Hnone]. apply ltb_true_iff in Hlt.
    now rewrite Hlt, Hnone.
Qed.

Lemma after_plus (n m : nat) (st : State) :
  after (n + m) st =
  match after n st with Some s => after m s | None => None end.
Proof.
  revert st. induction n as [|n IH]; intro st; simpl; [reflexivity|].
  destruct (loop_step st); auto.
Qed.

(** The last of [S n] iterations. *)
Lemma after_S_inv (n : nat) (st st' : State) :
  after (S n) st = Some st' ->
  exists sn, after n st = Some sn /\ loop_step sn = Next st'.
Proof.
  replace (S n) with (n + 1)%nat by lia. rewrite after_plus.
  destruct (after n st) as [sn|]; [|discriminate].
  simpl. destruct (loop_step sn) eqn:E; try discriminate.
  intro Heq. injection Heq as <-. now exists sn.
Qed.

Lemma after_prefix (n m : nat) (st s : State) :
  (n <= m)%nat -> after m st = Some s -> exists sn, after n st = Some sn.
Proof.
  intros Hle Hm. replace m with (n + (m - n))%nat in Hm by lia.
  rewrite after_plus in Hm. destruct (after n st) as [sn|]; [|discriminate].
  now exists sn.
Qed.

(** A run that stops with fuel [n] stops the same way with more. *)
Lemma run_loop_more_fuel (n m : nat) (st : State) :
  (n <= m)%nat ->
  (forall s, run_loop n st <> OutOfFuel s) ->
  run_loop m st = run_loop n st.
Proof.
  revert m st. induction n as [|n IH]; intros m st Hle Hstop.
  - exfalso. apply (Hstop st). reflexivity.
  - destruct m as [|m]; [lia|]. simpl in *.
    destruct (loop_step st); auto. apply IH; [lia | assumption].
Qed.

(** With fuel [n] the loop either stops or is at the state after [n]
    iterations. *)
Lemma run_loop_OutOfFuel (n : nat) (st s : State) :
  run_loop n st = OutOfFuel s <-> after n st = Some s.
Proof.
  revert st. induction n as [|n IH]; intro st; simpl.
  - split; intro Heq; injection Heq as <-; reflexivity.
  - destruct (loop_step st); try (split; discriminate). apply IH.
Qed.

Lemma run_loop_stops_at (n : nat) (st s : State) :
  run_loop n st = Finished s \/ run_loop n st = Raised s ->
  exists k, (k < n)%nat /\ after k st = Some s.
Proof.
  revert st. induction n as [|n IH]; intro st; simpl.
  - intros [Heq|Heq]; discriminate.
  - destruct (loop_step st) as [s1| |] eqn:E.
    + intro Hr. destruct (IH _ Hr) as [k [Hk Ha]].
      exists (S k). split; [lia|]. simpl. now rewrite E.
    + intros [Heq|Heq]; [|discriminate]. injection Heq as <-.
      exists 0%nat. split; [lia | reflexivity].
    + intros [Heq|Heq]; [discriminate|]. injection Heq as <-.
      exists 0%nat. split; [lia | reflexivity].
Qed.

Lemma after_S_intro (n : nat) (st sn sn' : State) :
  after n st = Some sn -> loop_step sn = Next sn' ->
  after (S n) st = Some sn'.
Proof.
  intros Hn Hs. replace (S n) with (n + 1)%nat by lia.
  rewrite after_plus, Hn. simpl. now rewrite Hs.
Qed.





(** It is left abnormally only when the stepper raised inside the body. *)
Lemma run_loop_Raised (fuel : nat) (st s : State) :
  run_loop fuel st = Raised s ->
  t s < tmax /\
  stepper_step (stepper s) (world s) (t s) (psi s) H normFunction = None.
Proof.
  revert st. induction fuel as [|fuel IH]; intro st; simpl.
  - discriminate.
  - destruct (loop_step st) eqn:E.
    + apply IH.
    + discriminate.
    + intro Heq. injection Heq as <-. now apply loop_step_Fault.
Qed.

Lemma ceiling_steps_cover (delta x : Q) :
  0 < delta ->
  x <= inject_Z (Z.of_nat (Z.to_nat (Qceiling (x / delta)))) * delta.
Proof.
  intro Hdelta.
  assert (Hne : ~ delta == 0) by lra.
  assert (Hx : x == x / delta * delta)
    by (field; exact Hne).
  rewrite Hx at 1. apply Qmult_le_compat_r; [|lra].
  eapply Qle_trans; [apply Qle_ceiling|].
  rewrite <- Zle_Qle. lia.
Qed.

Lemma after_disk (n : nat) (st s : State) :
  after n st = Some s -> disk s = disk st.
Proof.
  revert s. induction n as [|n IH]; intros s Hn.
  - simpl in Hn. now injection Hn as <-.
  - destruct (after_S_inv _ _ _ Hn) as [sn [Hsn Hstep]].
    rewrite <- (IH _ Hsn).
    apply loop_step_Next in Hstep as [_ Hb].
    apply loop_body_inv in Hb as (? & ? & ? & ? & ? & ? & _ & _ & ->).
    reflexivity.
Qed.

Lemma run_loop_disk (fuel : nat) (st : State) :
  disk (state_of (run_loop fuel st)) = disk st.
Proof.
  destruct (run_loop fuel st) as [s|s|s] eqn:E; simpl.
  - destruct (run_loop_stops_at fuel st s (or_introl E)) as [k [_ Hk]].
    exact (after_disk _ _ _ Hk).
  - destruct (run_loop_stops_at fuel st s (or_intror E)) as [k [_ Hk]].
    exact (after_disk _ _ _ Hk).
  - apply run_loop_OutOfFuel in E. exact (after_disk _ _ _ E).
Qed.

(** The one write the statements before the loop make. *)
Lemma initial_disk (psi0 : Params) (w0 : World) (dk0 : Disk Bytes) :
  disk (initial psi0 w0 dk0) =
  save (data (initial psi0 w0 dk0)) dk0.
Proof.
  unfold initial. destruct (measure observables psi0 w0). reflexivity.
Qed.

(** C4, amended. Every pass through the loop body appends one row
    [t, energy mean, X mean] to the observables, one parameter snapshot to
    the parameters and one row [t - dt, TDVP error, linear residual] to the
    residuals, and writes nothing to disk.  [save_to_disk] runs once before
    the loop and once after it, each time with the whole dictionary: a
    finished run leaves exactly these two writes. *)
Theorem step_appends_rows_and_run_saves_twice
        (psi0 : Params) (w0 : World) (dk0 : Disk Bytes) :
  (forall st st', loop_step st = Next st' ->
     exists dp stp' w1 obs w2,
       stepper_step (stepper st) (world st) (t st) (psi st) H normFunction
       = Some (dp, dt st', stp', w1) /\
       measure observables dp w1 = (obs, w2) /\
       observables_ (data st') =
         observables_ (data st) ++
         [(t st', obs "energy"%string, obs "X"%string)] /\
       parameters (data st') = parameters (data st) ++ [unfreeze dp] /\
       residuals (data st') =
         residuals (data st) ++
         [(t st' - dt st', fst (get_residuals w1), snd (get_residuals w1))]
       /\
       disk st' = disk st) /\
  (forall fuel st,
     time_evolution fuel psi0 w0 dk0 = Finished st ->
     disk st =
     (file_name str_float G fn, pickle_dump (data st)) ::
     (file_name str_float G fn,
      pickle_dump (data (initial psi0 w0 dk0))) :: dk0).
Proof.
  split.
  - intros st st' Hstep. apply loop_step_Next in Hstep as [_ Hb].
    apply loop_body_inv in Hb
      as (dp & dt' & stp' & w1 & obs & w2 & Hs & Hm & ->).
    exists dp, stp', w1, obs, w2. cbn. repeat split; assumption.
  - intros fuel st. unfold time_evolution.
    pose proof (run_loop_disk fuel (initial psi0 w0 dk0)) as Hd.
    destruct (run_loop fuel (initial psi0 w0 dk0)) as [s|s|s];
      try discriminate.
    intro Heq. injection Heq as <-. simpl in Hd. cbn [final_save disk data].
    rewrite Hd, initial_disk. reflexivity.
Qed.

Definition lengths_ok (d : Data) : Prop :=
  List.length (observables_ d) = List.length (parameters d) /\
  List.length (parameters d) = S (List.length (residuals d)).

Lemma after_lengths (psi0 : Params) (w0 : World) (dk0 : Disk Bytes)
      (n : nat) (s : State) :
  after n (initial psi0 w0 dk0) = Some s ->
  List.length (observables_ (data s)) = S n /\
  List.length (parameters (data s)) = S n /\
  List.length (residuals (data s)) = n.
Proof.
  revert s. induction n as [|n IH]; intros s Hn.
  - simpl in Hn. injection Hn as <-. unfold initial.
    destruct (measure observables psi0 w0). cbn. auto.
  - destruct (after_S_inv _ _ _ Hn) as [sn [Hsn Hstep]].
    destruct (IH _ Hsn) as (Ho & Hp & Hr).
    apply loop_step_Next in Hstep as [_ Hb].
    apply loop_body_inv in Hb as (? & ? & ? & ? & ? & ? & _ & _ & ->).
    cbn. rewrite !length_app. cbn. lia.
Qed.

(** With the default [df] the helper is the Euclidean squared norm. *)
Lemma norm_fun_default (v : Cx.Vec) : norm_fun v df_default == Cx.norm2 v.
Proof.
  unfold norm_fun, df_default, transpose.
  induction v as [|a v IH]; simpl; [reflexivity|].
  unfold Cx.re in *. simpl. rewrite IH. unfold Cx.re, Cx.im. ring.
Qed.

(** C5. The norm function the driver hands to [stepper.step] maps every
    [v] to the real part of conj(v)^T . S_dot(v), the quadratic form of
    the geometric tensor, and not to the Euclidean squared norm that
    [norm_fun] computes with its default [df]; the stepper's error
    estimate, taken with the supplied norm function, is that quadratic
    form of the difference of the two solution estimates. *)
Theorem norm_function_is_tensor_form :
  (forall w v,
      normFunction w v = Cx.re (Cx.dot (map Cx.conj v) (S_dot w v))) /\
  (forall st st', loop_step st = Next st' ->
     exists dp stp' w1,
       stepper_step (stepper st) (world st) (t st) (psi st) H
         (fun w v => Cx.re (Cx.dot (map Cx.conj v) (S_dot w v)))
       = Some (dp, dt st', stp', w1)) /\
  (forall w y_low y_high,
      error_estimate normFunction w y_low y_high =
      Cx.re (Cx.dot (map Cx.conj (Cx.vsub y_high y_low))
                    (S_dot w (Cx.vsub y_high y_low)))) /\
  (forall v, norm_fun v df_default == Cx.norm2 v) /\
  (forall M v,
      norm_fun v (Cx.mat_vec M) =
      Cx.re (Cx.dot (map Cx.conj v) (map (fun row => Cx.dot row v) M))) /\
  (exists M v, ~ norm_fun v (Cx.mat_vec M) == norm_fun v df_default).
Proof.
  split; [reflexivity|]. split; [|split; [reflexivity|]].
  - intros st st' Hstep. apply loop_step_Next in Hstep as [_ Hb].
    apply loop_body_inv in Hb
      as (dp & dt' & stp' & w1 & obs & w2 & Hs & _ & ->).
    exists dp, stp', w1. exact Hs.
  - split; [exact norm_fun_default|]. split; [reflexivity|].
    exists [[(2, 0)]], [(1, 0)]. vm_compute. discriminate.
Qed.

(** *** The recorded series and the disk along a run *)

Variable pickle_load : Bytes -> option Data.

(** The first entry of a row: its time stamp. *)
Definition time_of (row : Q * Q * Q) : Q := fst (fst row).

(** [np.array(rows)[:, k]] for rows of three numbers: the array of an empty
    list is one-dimensional, and indexing it with two indices raises
    IndexError. *)
Definition np_column (sel : Q * Q * Q -> Q) (rows : list (Q * Q * Q))
  : option (list Q) :=
  match rows with
  | [] => None
  | _ :: _ => Some (map sel rows)
  end.

(** [plot_observables(fn)]: the two curves handed to matplotlib, the
    magnetisation [obs_data[:,2]] against [obs_data[:,0]] and the TDVP error
    [res_data[:,1]] against [res_data[:,0]]. *)
Definition plot_observables (fn_ : string) (dk : Disk Bytes)
  : option ((list Q * list Q) * (list Q * list Q)) :=
  match load_from_disk Data Bytes pickle_load str_float G fn_ dk with
  | None => None
  | Some loaded_data =>
      let obs_data := observables_ loaded_data in
      let res_data := residuals loaded_data in
      match np_column time_of obs_data, np_column snd obs_data,
            np_column time_of res_data,
            np_column (fun r => snd (fst r)) res_data with
      | Some x0, Some y0, Some x1, Some y1 => Some ((x0, y0), (x1, y1))
      | _, _, _, _ => None
      end
  end.

(** What every state at a loop test satisfies: the newest observable row
    and the newest snapshot describe the current state, and residual row k
    carries the time of observable row k. *)
Definition series_inv (st : State) : Prop :=
  (exists rows e x, observables_ (data st) = rows ++ [(t st, e, x)]) /\
  (exists snaps, parameters (data st) = snaps ++ [unfreeze (psi st)]) /\
  Forall2 (fun r o => time_of r == time_of o)
          (residuals (data st)) (removelast (observables_ (data st))).

Lemma series_inv_initial (psi0 : Params) (w0 : World) (dk0 : Disk Bytes) :
  series_inv (initial psi0 w0 dk0).
Proof.
  unfold series_inv, initial. destruct (measure observables psi0 w0) as [obs w1].
  cbn. split; [|split].
  - exists [], (obs "energy"%string), (obs "X"%string). reflexivity.
  - exists []. reflexivity.
  - constructor.
Qed.

Lemma series_inv_step (st st' : State) :
  series_inv st -> loop_step st = Next st' -> series_inv st'.
Proof.
  intros (Hobs & Hpar & Hres) Hstep.
  apply loop_step_Next in Hstep as [_ Hb].
  apply loop_body_inv in Hb
    as (dp & dt' & stp' & w1 & obs & w2 & _ & _ & ->).
  unfold series_inv. cbn. split; [|split].
  - eexists _, _, _. reflexivity.
  - eexists. reflexivity.
  - rewrite removelast_last.
    destruct Hobs as (rows & e & x & Hrows). rewrite Hrows in *.
    rewrite removelast_last in Hres.
    apply Forall2_app; [exact Hres|].
    constructor; [|constructor]. unfold time_of. cbn. ring.
Qed.

Lemma series_inv_after (n : nat) (st s : State) :
  series_inv st -> after n st = Some s -> series_inv s.
Proof.
  intro Hinv. revert s. induction n as [|n IH]; intros s Hn.
  - simpl in Hn. now injection Hn as <-.
  - destruct (after_S_inv _ _ _ Hn) as [sn [Hsn Hstep]].
    exact (series_inv_step _ _ (IH _ Hsn) Hstep).
Qed.

(** Every state a run can be in was reached by complete iterations. *)
Lemma run_loop_reaches (fuel : nat) (st : State) :
  exists k, (k <= fuel)%nat /\ after k st = Some (state_of (run_loop fuel st)).
Proof.
  destruct (run_loop fuel st) as [s|s|s] eqn:E; simpl.
  - destruct (run_loop_stops_at _ _ _ (or_introl E)) as [k [Hk Ha]].
    exists k. split; [lia | exact Ha].
  - destruct (run_loop_stops_at _ _ _ (or_intror E)) as [k [Hk Ha]].
    exists k. split; [lia | exact Ha].
  - apply run_loop_OutOfFuel in E. exists fuel. split; [lia | exact E].
Qed.

Lemma time_evolution_data (fuel : nat) (psi0 : Params) (w0 : World)
      (dk0 : Disk Bytes) :
  data (state_of (time_evolution fuel psi0 w0 dk0)) =
  data (state_of (run_loop fuel (initial psi0 w0 dk0))) /\
  t (state_of (time_evolution fuel psi0 w0 dk0)) =
  t (state_of (run_loop fuel (initial psi0 w0 dk0))) /\
  psi (state_of (time_evolution fuel psi0 w0 dk0)) =
  psi (state_of (run_loop fuel (initial psi0 w0 dk0))).
Proof.
  unfold time_evolution.
  destruct (run_loop fuel (initial psi0 w0 dk0)); repeat split; reflexivity.
Qed.

(** X1. Whatever state the cell is in at a loop test or at its end,
    residual row k is stamped with the time of observable row k, the start
    of the step it belongs to. *)
Theorem residual_rows_carry_step_start_times
        (fuel : nat) (psi0 : Params) (w0 : World) (dk0 : Disk Bytes) :
  Forall2 (fun r o => time_of r == time_of o)
          (residuals (data (state_of (time_evolution fuel psi0 w0 dk0))))
          (removelast
             (observables_
                (data (state_of (time_evolution fuel psi0 w0 dk0))))).
Proof.
  destruct (time_evolution_data fuel psi0 w0 dk0) as (-> & _ & _).
  destruct (run_loop_reaches fuel (initial psi0 w0 dk0)) as [k [_ Hk]].
  exact (proj2 (proj2 (series_inv_after _ _ _
                         (series_inv_initial psi0 w0 dk0) Hk))).
Qed.

(** X2. Whatever state the cell is in at a loop test or at its end, the
    last observable row is stamped with the current time and the last
    parameter snapshot is the snapshot of the network's current
    parameters. *)
Theorem newest_rows_describe_current_state
        (fuel : nat) (psi0 : Params) (w0 : World) (dk0 : Disk Bytes) :
  let st := state_of (time_evolution fuel psi0 w0 dk0) in
  (exists rows e x, observables_ (data st) = rows ++ [(t st, e, x)]) /\
  (exists snaps, parameters (data st) = snaps ++ [unfreeze (psi st)]).
Proof.
  cbv zeta.
  destruct (time_evolution_data fuel psi0 w0 dk0) as (-> & -> & ->).
  destruct (run_loop_reaches fuel (initial psi0 w0 dk0)) as [k [_ Hk]].
  destruct (series_inv_after _ _ _ (series_inv_initial psi0 w0 dk0) Hk)
    as (Ho & Hp & _).
  split; assumption.
Qed.

(** X4. When [tmax <= 0] the loop body never runs: the cell ends with the
    single row of the initial state, no residual row, and two writes of the
    same bytes. *)
Theorem no_step_when_tmax_not_positive
        (fuel : nat) (psi0 : Params) (w0 : World) (dk0 : Disk Bytes) :
  tmax <= 0 ->
  exists s,
    time_evolution (S fuel) psi0 w0 dk0 = Finished s /\
    data s = data (initial psi0 w0 dk0) /\
    t s = 0 /\
    List.length (observables_ (data s)) = 1%nat /\
    residuals (data s) = [] /\
    disk s =
      (file_name str_float G fn, pickle_dump (data (initial psi0 w0 dk0))) ::
      (file_name str_float G fn, pickle_dump (data (initial psi0 w0 dk0))) ::
      dk0.
Proof.
  intro Hle.
  assert (Ht0 : t (initial psi0 w0 dk0) = 0).
  { unfold initial. destruct (measure observables psi0 w0). reflexivity. }
  assert (Hexit : loop_step (initial psi0 w0 dk0) = Exit).
  { apply loop_step_Exit. now rewrite Ht0. }
  exists (final_save (initial psi0 w0 dk0)).
  unfold time_evolution. simpl run_loop. rewrite Hexit.
  split; [reflexivity|]. split; [reflexivity|]. split; [exact Ht0|].
  destruct (after_lengths psi0 w0 dk0 0 _ eq_refl) as (Ho & _ & Hr).
  split; [exact Ho|]. split; [now apply length_zero_iff_nil|].
  cbn [final_save disk data]. now rewrite initial_disk.
Qed.

(** X5. When the stepper raises, the statement after the loop is not
    reached: the disk holds only the write made before the loop, so loading
    the file gives the single initial row however many steps had been
    recorded in memory. *)
Theorem raised_run_leaves_only_initial_file
        (fuel : nat) (psi0 : Params) (w0 : World) (dk0 : Disk Bytes)
        (s : State) :
  time_evolution fuel psi0 w0 dk0 = Raised s ->
  pickle_load (pickle_dump (data (initial psi0 w0 dk0)))
  = Some (data (initial psi0 w0 dk0)) ->
  disk s =
    (file_name str_float G fn, pickle_dump (data (initial psi0 w0 dk0))) ::
    dk0 /\
  load_from_disk Data Bytes pickle_load str_float G fn (disk s)
  = Some (data (initial psi0 w0 dk0)) /\
  List.length (residuals (data (initial psi0 w0 dk0))) = 0%nat.
Proof.
  intros Hrun Hpickle. unfold time_evolution in Hrun.
  pose proof (run_loop_disk fuel (initial psi0 w0 dk0)) as Hd.
  destruct (run_loop fuel (initial psi0 w0 dk0)) as [s'|s'|s'];
    try discriminate.
  injection Hrun as <-. simpl in Hd. rewrite initial_disk in Hd.
  split; [exact Hd|]. split.
  - rewrite Hd. unfold load_from_disk, save, save_to_disk, write_wb. simpl.
    rewrite String.eqb_refl. exact Hpickle.
  - destruct (after_lengths psi0 w0 dk0 0 _ eq_refl) as (_ & _ & Hr).
    exact Hr.
Qed.

Lemma load_after_finished
      (fuel : nat) (psi0 : Params) (w0 : World) (dk0 : Disk Bytes)
      (s : State) :
  time_evolution fuel psi0 w0 dk0 = Finished s ->
  load_from_disk Data Bytes pickle_load str_float G fn (disk s)
  = pickle_load (pickle_dump (data s)).
Proof.
  intro Hrun. unfold time_evolution in Hrun.
  destruct (run_loop fuel (initial psi0 w0 dk0)) as [s'|s'|s'];
    try discriminate.
  injection Hrun as <-. cbn [final_save disk data] in *.
  unfold load_from_disk, save, save_to_disk, write_wb. simpl.
  now rewrite String.eqb_refl.
Qed.

Lemma time_evolution_lengths
      (fuel : nat) (psi0 : Params) (w0 : World) (dk0 : Disk Bytes) :
  lengths_ok (data (state_of (time_evolution fuel psi0 w0 dk0))).
Proof.
  destruct (time_evolution_data fuel psi0 w0 dk0) as (-> & _ & _).
  destruct (run_loop_reaches fuel (initial psi0 w0 dk0)) as [k [_ Hk]].
  destruct (after_lengths _ _ _ _ _ Hk) as (Ho & Hp & Hr).
  unfold lengths_ok. lia.
Qed.

(** X6. After the cell has finished, loading the file gives the complete
    series of the run, provided it survives pickling. *)
Theorem finished_run_file_holds_whole_series
        (fuel : nat) (psi0 : Params) (w0 : World) (dk0 : Disk Bytes)
        (s : State) :
  time_evolution fuel psi0 w0 dk0 = Finished s ->
  pickle_load (pickle_dump (data s)) = Some (data s) ->
  load_from_disk Data Bytes pickle_load str_float G fn (disk s)
  = Some (data s).
Proof.
  intros Hrun Hpickle.
  now rewrite (load_after_finished _ _ _ _ _ Hrun).
Qed.

Lemma np_column_length (sel : Q * Q * Q -> Q) (rows : list (Q * Q * Q))
      (col : list Q) :
  np_column sel rows = Some col -> List.length col = List.length rows.
Proof.
  destruct rows as [|r rows]; [discriminate|].
  intro Heq. injection Heq as <-. simpl. now rewrite length_map.
Qed.

(** X7. After a finished run of at least one step [plot_observables]
    succeeds: it plots one magnetisation point per observable row and one
    error point per step, so one point fewer on the second axis, against
    the time stamps of the rows. *)
Theorem plot_observables_after_finished_run
        (fuel : nat) (psi0 : Params) (w0 : World) (dk0 : Disk Bytes)
        (s : State) :
  time_evolution fuel psi0 w0 dk0 = Finished s ->
  pickle_load (pickle_dump (data s)) = Some (data s) ->
  (0 < steps_taken s)%nat ->
  plot_observables fn (disk s) =
    Some ((map time_of (observables_ (data s)),
           map snd (observables_ (data s))),
          (map time_of (residuals (data s)),
           map (fun r => snd (fst r)) (residuals (data s)))) /\
  List.length (map time_of (observables_ (data s))) =
    S (List.length (map time_of (residuals (data s)))).
Proof.
  intros Hrun Hpickle Hsteps.
  assert (Hlen : lengths_ok (data s)).
  { pose proof (time_evolution_lengths fuel psi0 w0 dk0) as Hl.
    rewrite Hrun in Hl. exact Hl. }
  destruct Hlen as [Ho Hp]. unfold steps_taken in Hsteps.
  split.
  - unfold plot_observables.
    rewrite (load_after_finished _ _ _ _ _ Hrun), Hpickle.
    destruct (observables_ (data s)) as [|o os]; [simpl in *; lia|].
    destruct (residuals (data s)) as [|r rs]; [simpl in *; lia|].
    reflexivity.
  - rewrite !length_map. lia.
Qed.

(** X8. After a run that the stepper interrupted, and after a run that
    took no step, the file holds no residual row and [plot_observables]
    raises instead of plotting. *)
Theorem plot_observables_fails_without_residual_rows
        (fuel : nat) (psi0 : Params) (w0 : World) (dk0 : Disk Bytes)
        (s : State) :
  pickle_load (pickle_dump (data (initial psi0 w0 dk0)))
  = Some (data (initial psi0 w0 dk0)) ->
  time_evolution fuel psi0 w0 dk0 = Raised s \/
  (time_evolution fuel psi0 w0 dk0 = Finished s /\ steps_taken s = 0%nat) ->
  plot_observables fn (disk s) = None.
Proof.
  intros Hpickle Hrun.
  assert (Hinit : residuals (data (initial psi0 w0 dk0)) = []).
  { destruct (after_lengths psi0 w0 dk0 0 _ eq_refl) as (_ & _ & Hr).
    now apply length_zero_iff_nil. }
  assert (Hload : load_from_disk Data Bytes pickle_load str_float G fn (disk s)
                  = Some (data (initial psi0 w0 dk0))).
  { destruct Hrun as [Hrun|[Hrun Hzero]].
    - unfold time_evolution in Hrun.
      pose proof (run_loop_disk fuel (initial psi0 w0 dk0)) as Hd.
      destruct (run_loop fuel (initial psi0 w0 dk0)) as [s'|s'|s'];
        try discriminate.
      injection Hrun as <-. simpl in Hd. rewrite Hd, initial_disk.
      unfold load_from_disk, save, save_to_disk, write_wb. simpl.
      rewrite String.eqb_refl. exact Hpickle.
    - rewrite (load_after_finished _ _ _ _ _ Hrun).
      assert (Hs : data s = data (initial psi0 w0 dk0)).
      { unfold time_evolution in Hrun.
        destruct (run_loop fuel (initial psi0 w0 dk0)) as [s'|s'|s'] eqn:E;
          try discriminate.
        injection Hrun as <-. cbn [final_save data steps_taken] in *.
        destruct (run_loop_stops_at _ _ _ (or_introl E)) as [k [_ Hk]].
        destruct (after_lengths _ _ _ _ _ Hk) as (_ & _ & Hr).
        unfold steps_taken in Hzero. cbn [final_save data] in Hzero.
        rewrite Hzero in Hr. subst k.
        simpl in Hk. now injection Hk as <-. }
      rewrite Hs. exact Hpickle. }
  unfold plot_observables. rewrite Hload, Hinit.
  destruct (observables_ (data (initial psi0 w0 dk0))); reflexivity.
Qed.

(** *** [plot_parameters] *)

(** numpy arrays of one and two dimensions: the shape and the entries. *)
Record Array1 : Type := mkArray1 { len1 : nat; at1 : nat -> Q }.
Record Array2 : Type :=
  mkArray2 { shape0 : nat; shape1 : nat; at2 : nat -> nat -> Q }.

(** [p["L1"]["kernel"]], the weights of the first dense layer: one row per
    site, one column per hidden unit. *)
Variable kernel : Snapshot -> Array2.

(** What indexing a column that does not exist gives: numpy raises
    IndexError, jax clamps the index; which of the two the unpickled kernel
    does is left open. *)
Variable out_of_bounds : Array2 -> nat -> option Array1.

(** [A[:, k]] *)
Definition column (A : Array2) (k : nat) : option Array1 :=
  if (k <? shape1 A)%nat
  then Some {| len1 := shape0 A; at1 := fun i => at2 A i k |}
  else out_of_bounds A k.

(** [np.reshape(a, (1, -1))] *)
Definition reshape_row (a : Array1) : Array2 :=
  {| shape0 := 1; shape1 := len1 a; at2 := fun _ j => at1 a j |}.

(** [np.concatenate(arrays)] along the first axis; ValueError on an empty
    list and on arrays of different widths. *)
Fixpoint concatenate (arrays : list Array2) : option Array2 :=
  match arrays with
  | [] => None
  | [A] => Some A
  | A :: rest =>
      match concatenate rest with
      | None => None
      | Some B =>
          if (shape1 A =? shape1 B)%nat
          then Some {| shape0 := shape0 A + shape0 B;
                       shape1 := shape1 A;
                       at2 := fun i j =>
                                if (i <? shape0 A)%nat then at2 A i j
                                else at2 B (i - shape0 A) j |}
          else None
      end
  end.

(** [D[::5, :]] *)
Definition every_fifth_row (D : Array2) : Array2 :=
  {| shape0 := (shape0 D + 4) / 5; shape1 := shape1 D;
     at2 := fun i j => at2 D (5 * i) j |}.

(** [np.transpose] and [np.abs] *)
Definition np_transpose (A : Array2) : Array2 :=
  {| shape0 := shape1 A; shape1 := shape0 A; at2 := fun i j => at2 A j i |}.

Definition np_abs (A : Array2) : Array2 :=
  {| shape0 := shape0 A; shape1 := shape1 A;
     at2 := fun i j => Qabs (at2 A i j) |}.

(** A list comprehension whose body can raise. *)
Fixpoint comprehension {A B : Type} (f : A -> option B) (xs : list A)
  : option (list B) :=
  match xs with
  | [] => Some []
  | x :: xs' =>
      match f x with
      | None => None
      | Some y =>
          match comprehension f xs' with
          | None => None
          | Some ys => Some (y :: ys)
          end
      end
  end.

(** The image shown on panel [k]. *)
Definition panel (param_data : list Snapshot) (k : nat) : option Array2 :=
  match comprehension
          (fun p => option_map reshape_row (column (kernel p) k))
          param_data with
  | None => None
  | Some pieces =>
      match concatenate pieces with
      | None => None
      | Some D => Some (np_abs (np_transpose (every_fifth_row D)))
      end
  end.

(** [plot_parameters(fn)]: the images handed to [imshow], panel by panel.
    The number of panels read from the kernel's shape is overwritten
    with 5. *)
Definition plot_parameters (fn_ : string) (dk : Disk Bytes)
  : option (list Array2) :=
  match load_from_disk Data Bytes pickle_load str_float G fn_ dk with
  | None => None
  | Some loaded =>
      let param_data := parameters loaded in
      match param_data with
      | [] => None
      | p0 :: _ =>
          let n_hidden := shape1 (kernel p0) in
          let n_hidden := 5%nat in
          comprehension (panel param_data) (Py.range n_hidden)
      end
  end.

Lemma comprehension_None {A B : Type} (f : A -> option B) (xs : list A)
      (x : A) :
  In x xs -> f x = None -> comprehension f xs = None.
Proof.
  induction xs as [|y xs IH]; intros Hin Hx; [contradiction|].
  simpl. destruct Hin as [->|Hin].
  - now rewrite Hx.
  - destruct (f y); [|reflexivity]. now rewrite (IH Hin Hx).
Qed.

Lemma comprehension_Some {A B : Type} (f : A -> option B) (g : A -> B)
      (xs : list A) :
  (forall x, In x xs -> f x = Some (g x)) ->
  comprehension f xs = Some (map g xs).
Proof.
  induction xs as [|y xs IH]; intro Hf; [reflexivity|].
  simpl. rewrite (Hf y) by now left.
  rewrite IH by (intros x Hx; apply Hf; now right). reflexivity.
Qed.

(** Stacking rows of one width gives the array of those rows. *)
Lemma concatenate_rows (n : nat) (rows : list Array1) (r0 : Array1) :
  rows <> [] ->
  (forall r, In r rows -> len1 r = n) ->
  exists D,
    concatenate (map reshape_row rows) = Some D /\
    shape0 D = List.length rows /\ shape1 D = n /\
    forall i j, (i < List.length rows)%nat ->
                at2 D i j = at1 (nth i rows r0) j.
Proof.
  induction rows as [|r rows IH]; intros Hne Hlen; [congruence|].
  destruct rows as [|r' rows'].
  - exists (reshape_row r). simpl. split; [reflexivity|].
    split; [reflexivity|]. split; [apply Hlen; now left|].
    intros i j Hi. destruct i; [reflexivity | lia].
  - destruct IH as (B & HB & Hs0 & Hs1 & Hat);
      [discriminate | intros x Hx; apply Hlen; now right |].
    change (concatenate (map reshape_row (r :: r' :: rows')))
      with (match concatenate (map reshape_row (r' :: rows')) with
            | None => None
            | Some B0 =>
                if (shape1 (reshape_row r) =? shape1 B0)%nat
                then Some {| shape0 := shape0 (reshape_row r) + shape0 B0;
                             shape1 := shape1 (reshape_row r);
                             at2 := fun i j =>
                                      if (i <? shape0 (reshape_row r))%nat
                                      then at2 (reshape_row r) i j
                                      else at2 B0
                                             (i - shape0 (reshape_row r)) j |}
                else None
            end).
    rewrite HB. cbn [reshape_row shape0 shape1 at2].
    rewrite Hs1, (Hlen r) by now left. rewrite Nat.eqb_refl.
    eexists. split; [reflexivity|]. cbn [shape0 shape1 at2].
    split; [rewrite Hs0; reflexivity|]. split; [reflexivity|].
    intros i j Hi. destruct i as [|i].
    + reflexivity.
    + replace (S i <? 1)%nat with false
        by (symmetry; apply Nat.ltb_ge; lia).
      replace (S i - 1)%nat with i by lia.
      rewrite Hat by (simpl in *; lia). reflexivity.
Qed.

Definition kernel_column (k : nat) (p : Snapshot) : Array1 :=
  {| len1 := shape0 (kernel p); at1 := fun i => at2 (kernel p) i k |}.

Lemma panel_spec (n k : nat) (param_data : list Snapshot) (p0 : Snapshot) :
  param_data <> [] ->
  (forall p, In p param_data ->
             (k < shape1 (kernel p))%nat /\ shape0 (kernel p) = n) ->
  exists img,
    panel param_data k = Some img /\
    shape0 img = n /\
    shape1 img = ((List.length param_data + 4) / 5)%nat /\
    forall i j, (j < shape1 img)%nat ->
                at2 img i j = Qabs (at2 (kernel (nth (5 * j) param_data p0)) i k).
Proof.
  intros Hne Hshape. unfold panel.
  rewrite (comprehension_Some _ (fun p => reshape_row (kernel_column k p))).
  - rewrite <- map_map.
    destruct (concatenate_rows n (map (kernel_column k) param_data)
                               (kernel_column k p0))
      as (D & HD & Hs0 & Hs1 & Hat).
    + destruct param_data; [congruence | discriminate].
    + intros r Hr. apply in_map_iff in Hr as [p [<- Hp]].
      apply (Hshape p Hp).
    + rewrite HD. eexists. split; [reflexivity|].
      cbn [np_abs np_transpose every_fifth_row shape0 shape1 at2].
      rewrite length_map in Hs0.
      split; [exact Hs1|]. split; [now rewrite Hs0|].
      intros i j Hj. rewrite Hs0 in Hj.
      assert (H5 : (5 * j < List.length param_data)%nat).
      { pose proof (Nat.div_mod_eq (List.length param_data + 4) 5) as Hdm.
        pose proof (Nat.mod_upper_bound (List.length param_data + 4) 5) as Hm.
        lia. }
      rewrite Hat by (rewrite length_map; exact H5).
      rewrite (map_nth (kernel_column k)). reflexivity.
  - intros p Hp. unfold column.
    destruct (Hshape p Hp) as [Hk _].
    apply Nat.ltb_lt in Hk. rewrite Hk. reflexivity.
Qed.

(** X9. When every saved snapshot has a kernel of n rows and at least five
    columns, [plot_parameters] shows exactly five panels, whatever the width
    of the network: panel k has one row per site and one column for every
    fifth snapshot, and shows the absolute values of column k of those
    kernels. *)
Theorem plot_parameters_shows_five_hidden_units
        (n : nat) (fn_ : string) (dk : Disk Bytes) (loaded : Data)
        (p0 : Snapshot) :
  load_from_disk Data Bytes pickle_load str_float G fn_ dk = Some loaded ->
  parameters loaded <> [] ->
  (forall p, In p (parameters loaded) ->
             (5 <= shape1 (kernel p))%nat /\ shape0 (kernel p) = n) ->
  exists imgs,
    plot_parameters fn_ dk = Some imgs /\
    List.length imgs = 5%nat /\
    forall k, (k < 5)%nat ->
      exists img,
        nth_error imgs k = Some img /\
        shape0 img = n /\
        shape1 img = ((List.length (parameters loaded) + 4) / 5)%nat /\
        forall i j, (j < shape1 img)%nat ->
          at2 img i j =
          Qabs (at2 (kernel (nth (5 * j) (parameters loaded) p0)) i k).
Proof.
  intros Hload Hne Hshape. unfold plot_parameters. rewrite Hload.
  destruct (parameters loaded) as [|q0 qs] eqn:Eps; [congruence|].
  cbv zeta.
  assert (Hpanel : forall k, (k < 5)%nat ->
            exists img,
              panel (q0 :: qs) k = Some img /\
              shape0 img = n /\
              shape1 img = ((List.length (q0 :: qs) + 4) / 5)%nat /\
              forall i j, (j < shape1 img)%nat ->
                at2 img i j =
                Qabs (at2 (kernel (nth (5 * j) (q0 :: qs) p0)) i k)).
  { intros k Hk. apply panel_spec; [discriminate|].
    intros p Hp. destruct (Hshape p Hp) as [H5 Hn]. split; [lia | exact Hn]. }
  destruct (Hpanel 0%nat) as (i0 & E0 & S0); [lia|].
  destruct (Hpanel 1%nat) as (i1 & E1 & S1); [lia|].
  destruct (Hpanel 2%nat) as (i2 & E2 & S2); [lia|].
  destruct (Hpanel 3%nat) as (i3 & E3 & S3); [lia|].
  destruct (Hpanel 4%nat) as (i4 & E4 & S4); [lia|].
  exists [i0; i1; i2; i3; i4].
  split; [|split; [reflexivity|]].
  - unfold Py.range. cbn [seq comprehension].
    now rewrite E0, E1, E2, E3, E4.
  - intros k Hk.
    destruct k as [|[|[|[|[|k]]]]]; try lia; eexists;
      (split; [reflexivity | assumption]).
Qed.

(** *** The lengths of the lists inside one pass *)

(** The three [append] statements of the loop body, one at a time. *)
Definition append_observables (d : Data) (row : Q * Q * Q) : Data :=
  {| parameters := parameters d;
     observables_ := observables_ d ++ [row];
     residuals := residuals d |}.

Definition append_parameters (d : Data) (p : Snapshot) : Data :=
  {| parameters := parameters d ++ [p];
     observables_ := observables_ d;
     residuals := residuals d |}.

Definition append_residuals (d : Data) (row : Q * Q * Q) : Data :=
  {| parameters := parameters d;
     observables_ := observables_ d;
     residuals := residuals d ++ [row] |}.

(** The value of [data] after each of the three appends of one pass
    through the body. *)
Definition body_data_points (st : State) : option (list Data) :=
  match stepper_step (stepper st) (world st) (t st) (psi st) H normFunction
  with
  | None => None
  | Some (dp, dt', stp', w1) =>
      let psi' := dp in
      let t' := t st + dt' in
      let (tdvpErr, linEqRes) := get_residuals w1 in
      let (obs, w2) := measure observables psi' w1 in
      let d1 := append_observables
                  (data st) (t', obs "energy"%string, obs "X"%string) in
      let d2 := append_parameters d1 (unfreeze psi') in
      let d3 := append_residuals d2 (t' - dt', tdvpErr, linEqRes) in
      Some [d1; d2; d3]
  end.

Definition lengths (d : Data) : nat * nat * nat :=
  (List.length (observables_ d), List.length (parameters d),
   List.length (residuals d)).

(** The third point is the [data] the pass ends with. *)
Lemma body_data_points_end (st st' : State) :
  loop_body st = Some st' ->
  exists row p,
    body_data_points st =
    Some [append_observables (data st) row;
          append_parameters (append_observables (data st) row) p;
          data st'].
Proof.
  unfold loop_body, body_data_points.
  destruct (stepper_step _ _ _ _ _ _) as [[[[dp dt'] stp'] w1]|];
    [|discriminate].
  destruct (get_residuals w1) as [e r].
  destruct (measure observables dp w1) as [obs w2].
  intro Heq. injection Heq as <-.
  eexists _, _. reflexivity.
Qed.

(** C9, amended. At every loop test and after the loop the lists satisfy
    len(observables) = len(parameters) = len(residuals) + 1: after n
    complete passes they hold n+1, n+1 and n entries.  Inside a pass the
    relation is broken between the appends: after the first append the
    lengths are n+2, n+1, n, after the second n+2, n+2, n, and the third
    append restores the relation with n+2, n+2, n+1. *)
Theorem series_lengths_hold_between_passes
        (psi0 : Params) (w0 : World) (dk0 : Disk Bytes) :
  (forall fuel,
      lengths_ok (data (state_of (run_loop fuel (initial psi0 w0 dk0)))) /\
      lengths_ok (data (state_of (time_evolution fuel psi0 w0 dk0)))) /\
  (forall n st, after n (initial psi0 w0 dk0) = Some st ->
                lengths (data st) = (S n, S n, n)) /\
  (forall n st st',
      after n (initial psi0 w0 dk0) = Some st ->
      loop_step st = Next st' ->
      exists d1 d2,
        body_data_points st = Some [d1; d2; data st'] /\
        lengths d1 = (S (S n), S n, n) /\ ~ lengths_ok d1 /\
        lengths d2 = (S (S n), S (S n), n) /\ ~ lengths_ok d2 /\
        lengths (data st') = (S (S n), S (S n), S n)).
Proof.
  split; [|split].
  - intro fuel. split.
    + destruct (run_loop_reaches fuel (initial psi0 w0 dk0)) as [k [_ Hk]].
      destruct (after_lengths _ _ _ _ _ Hk) as (Ho & Hp & Hr).
      unfold lengths_ok. lia.
    + apply time_evolution_lengths.
  - intros n st Hn.
    destruct (after_lengths _ _ _ _ _ Hn) as (Ho & Hp & Hr).
    unfold lengths. now rewrite Ho, Hp, Hr.
  - intros n st st' Hn Hstep.
    destruct (after_lengths _ _ _ _ _ Hn) as (Ho & Hp & Hr).
    destruct (after_lengths _ _ _ _ _ (after_S_intro _ _ _ _ Hn Hstep))
      as (Ho' & Hp' & Hr').
    apply loop_step_Next in Hstep as [_ Hb].
    destruct (body_data_points_end _ _ Hb) as (row & p & Hpts).
    eexists _, _. split; [exact Hpts|].
    unfold lengths, lengths_ok. cbn. rewrite !length_app. cbn.
    rewrite Ho, Hp, Hr, Ho', Hp', Hr'.
    repeat split; try (f_equal; f_equal; lia); lia.
Qed.


End Driver.

(** ** The operators the notebook builds *)

Section Operators.

Import Op.

(** A loop of [add] calls builds the concatenation of what each pass
    adds. *)
Lemma fold_add_flat_map {A : Type}
      (body : BranchFreeOperator -> A -> BranchFreeOperator)
      (f : A -> list term) (xs : list A) (init : BranchFreeOperator) :
  (forall O x, body O x = O ++ f x) ->
  fold_left body xs init = init ++ flat_map f xs.
Proof.
  intro Hbody. revert init.
  induction xs as [|x xs IH]; intro init; simpl.
  - now rewrite app_nil_r.
  - rewrite IH, Hbody. now rewrite app_assoc.
Qed.

Lemma flat_map_single {A B : Type} (f : A -> B) (xs : list A) :
  flat_map (fun x => [f x]) xs = map f xs.
Proof.
  induction xs as [|x xs IH]; simpl; [reflexivity | now rewrite IH].
Qed.

Lemma build_X_terms (L : nat) :
  Notebook.build_X L =
  map (fun l => scal_opstr (1 / inject_Z (Z.of_nat L)) [Sx l]) (seq 0 L).
Proof.
  unfold Notebook.build_X, Py.range, add, empty.
  rewrite (fold_add_flat_map _
             (fun l => [scal_opstr (1 / inject_Z (Z.of_nat L)) [Sx l]]))
    by reflexivity.
  simpl. apply flat_map_single.
Qed.

Lemma build_H_init_terms (L : nat) :
  Notebook.build_H_init L = map (fun l => scal_opstr (- 1) [Sx l]) (seq 0 L).
Proof.
  unfold Notebook.build_H_init, Py.range, add, empty.
  rewrite (fold_add_flat_map _ (fun l => [scal_opstr (- 1) [Sx l]]))
    by reflexivity.
  simpl. apply flat_map_single.
Qed.

Lemma build_H_terms (L : nat) (g h : Q) :
  Notebook.build_H L g h =
  flat_map (fun l => [scal_opstr (- 1) [Sx l; Sx ((l + 1) mod L)];
                      scal_opstr (- h) [Sx l];
                      scal_opstr (- g) [Sz l]]) (seq 0 L).
Proof.
  unfold Notebook.build_H, Py.range, empty.
  rewrite (fold_add_flat_map (Notebook.H_body L g h)
             (fun l => [scal_opstr (- 1) [Sx l; Sx ((l + 1) mod L)];
                        scal_opstr (- h) [Sx l];
                        scal_opstr (- g) [Sz l]])); [reflexivity|].
  intros O l. unfold Notebook.H_body, add. now rewrite <- !app_assoc.
Qed.

Lemma qsum_const {A : Type} (f : A -> Q) (a : Q) (xs : list A) :
  (forall x, In x xs -> f x == a) ->
  qsum (map f xs) == inject_Z (Z.of_nat (List.length xs)) * a.
Proof.
  induction xs as [|x xs IH]; intro Hf.
  - simpl. ring.
  - change (qsum (map f (x :: xs))) with (f x + qsum (map f xs)).
    rewrite IH by (intros y Hy; apply Hf; now right).
    rewrite (Hf x) by now left.
    change (List.length (x :: xs)) with (S (List.length xs)).
    rewrite Nat2Z.inj_succ. unfold Z.succ. rewrite inject_Z_plus.
    change (inject_Z 1) with 1. ring.
Qed.

Lemma all_configs_nonempty (n : nat) : (0 < List.length (all_configs n))%nat.
Proof.
  induction n as [|n IH]; cbn [all_configs]; [simpl; lia|].
  rewrite length_app, !length_map. unfold config in *. lia.
Qed.

(** On a state with equal amplitudes every configuration has local
    estimator 1 for the site-averaged x polarisation. *)
Lemma X_local_estimator (L : nat) (c : Q) (s : config) :
  (0 < L)%nat -> ~ c == 0 ->
  O_loc (Notebook.build_X L) (x_polarized c) s == 1.
Proof.
  intros HL Hc. unfold O_loc. rewrite build_X_terms, map_map.
  assert (HLq : ~ inject_Z (Z.of_nat L) == 0).
  { intro Heq. apply (Qeq_bool_neq (inject_Z (Z.of_nat L)) 0); [|exact Heq].
    unfold Qeq_bool. simpl. apply Z.eqb_neq. lia. }
  rewrite (qsum_const _ (1 / inject_Z (Z.of_nat L))).
  - rewrite length_seq. field. exact HLq.
  - intros l _. unfold s_prime, x_polarized. simpl. field. now split.
Qed.

(** C10. The operator X has exactly one term per site, the single-site
    operator Sx(l) with coefficient 1/L, for l = 0 .. L-1 and nothing else;
    its coefficients sum to 1 whatever L is, and its expectation value on
    the product state with all spins along +x is 1. *)
Theorem X_is_site_averaged_polarization (L : nat) (c : Q) :
  (0 < L)%nat -> ~ c == 0 ->
  Notebook.build_X L =
    map (fun l => scal_opstr (1 / inject_Z (Z.of_nat L)) [Sx l])
        (seq 0 L) /\
  List.length (Notebook.build_X L) = L /\
  qsum (map coeff (Notebook.build_X L)) == 1 /\
  expectation (Notebook.build_X L) (x_polarized c) L == 1.
Proof.
  intros HL Hc.
  assert (HLq : ~ inject_Z (Z.of_nat L) == 0).
  { intro Heq. apply (Qeq_bool_neq (inject_Z (Z.of_nat L)) 0); [|exact Heq].
    unfold Qeq_bool. simpl. apply Z.eqb_neq. lia. }
  split; [apply build_X_terms|]. split; [|split].
  - now rewrite build_X_terms, length_map, length_seq.
  - rewrite build_X_terms, map_map.
    rewrite (qsum_const _ (1 / inject_Z (Z.of_nat L)))
      by (intros; reflexivity).
    rewrite length_seq. field. exact HLq.
  - unfold expectation.
    set (N := inject_Z (Z.of_nat (List.length (all_configs L)))).
    assert (HN : ~ N == 0).
    { intro Heq. apply (Qeq_bool_neq N 0); [|exact Heq].
      unfold Qeq_bool, N. simpl. apply Z.eqb_neq.
      pose proof (all_configs_nonempty L). lia. }
    rewrite (qsum_const _ (c * c)).
    + rewrite (qsum_const (fun s => x_polarized c s * x_polarized c s)
                          (c * c)) by (intros; reflexivity).
      fold N. field. now split.
    + intros s _. rewrite (X_local_estimator L c s HL Hc).
      unfold x_polarized. ring.
Qed.

Lemma X_is_site_averaged_polarization_witness :
  (0 < Notebook.L)%nat /\ ~ 1 == 0 /\
  List.length Notebook.X = 8%nat /\
  expectation Notebook.X (x_polarized 1) Notebook.L == 1.
Proof.
  assert (H1 : ~ 1 == 0) by (intro H; discriminate H).
  assert (H8 : (0 < Notebook.L)%nat) by (unfold Notebook.L; lia).
  split; [exact H8|]. split; [exact H1|].
  destruct (X_is_site_averaged_polarization Notebook.L 1 H8 H1)
    as (_ & Hlen & _ & Hexp).
  split; [exact Hlen | exact Hexp].
Defined.

(** *** Sums over configurations *)

Lemma qsum_app (xs ys : list Q) : qsum (xs ++ ys) == qsum xs + qsum ys.
Proof.
  induction xs as [|x xs IH]; simpl; [ring | rewrite IH; ring].
Qed.

Lemma qsum_ext {A : Type} (f f' : A -> Q) (xs : list A) :
  (forall x, In x xs -> f x == f' x) ->
  qsum (map f xs) == qsum (map f' xs).
Proof.
  induction xs as [|x xs IH]; intro Hf; simpl; [reflexivity|].
  rewrite (Hf x) by now left.
  rewrite IH by (intros y Hy; apply Hf; now right). reflexivity.
Qed.

Lemma qsum_le {A : Type} (f f' : A -> Q) (xs : list A) :
  (forall x, In x xs -> f x <= f' x) ->
  qsum (map f xs) <= qsum (map f' xs).
Proof.
  induction xs as [|x xs IH]; intro Hf; simpl; [apply Qle_refl|].
  apply Qplus_le_compat; [apply Hf; now left|].
  apply IH. intros y Hy. apply Hf. now right.
Qed.

Lemma qsum_plus {A : Type} (f f' : A -> Q) (xs : list A) :
  qsum (map (fun x => f x + f' x) xs) ==
  qsum (map f xs) + qsum (map f' xs).
Proof.
  induction xs as [|x xs IH]; simpl; [ring | rewrite IH; ring].
Qed.

Lemma qsum_scal {A : Type} (a : Q) (f : A -> Q) (xs : list A) :
  qsum (map (fun x => a * f x) xs) == a * qsum (map f xs).
Proof.
  induction xs as [|x xs IH]; simpl; [ring | rewrite IH; ring].
Qed.

Lemma qsum_swap {A B : Type} (f : A -> B -> Q) (xs : list A) (ys : list B) :
  qsum (map (fun x => qsum (map (fun y => f x y) ys)) xs) ==
  qsum (map (fun y => qsum (map (fun x => f x y) xs)) ys).
Proof.
  induction xs as [|x xs IH]; simpl.
  - rewrite (qsum_const (fun _ : B => 0) 0) by (intros; reflexivity). ring.
  - rewrite IH. now rewrite <- qsum_plus.
Qed.

Lemma qsum_flat_map {A : Type} (f : term -> Q) (g : A -> list term)
      (xs : list A) :
  qsum (map f (flat_map g xs)) ==
  qsum (map (fun x => qsum (map f (g x))) xs).
Proof.
  induction xs as [|x xs IH]; simpl; [reflexivity|].
  now rewrite map_app, qsum_app, IH.
Qed.

(** Flipping one spin permutes the configurations, so it leaves a sum over
    all of them unchanged. *)
Lemma qsum_flip (n l : nat) (f : config -> Q) :
  qsum (map (fun s => f (flip l s)) (all_configs n)) ==
  qsum (map f (all_configs n)).
Proof.
  revert l f. induction n as [|n IH]; intros l f.
  - destruct l; reflexivity.
  - cbn [all_configs]. rewrite !map_app, !map_map, !qsum_app.
    destruct l as [|l]; cbn [flip negb].
    + ring.
    + rewrite (IH l (fun s => f (false :: s))).
      rewrite (IH l (fun s => f (true :: s))). reflexivity.
Qed.

(** The diagonal element of Sz(l): +1 on bit 1, -1 on bit 0. *)
Definition sz (s : config) (l : nat) : Q := if nth l s false then 1 else -1.

(** Summed over all configurations and all sites the Sz elements cancel. *)
Lemma sz_total (n : nat) :
  qsum (map (fun s => qsum (map (sz s) (seq 0 n))) (all_configs n)) == 0.
Proof.
  induction n as [|n IH]; [reflexivity|].
  cbn [all_configs]. rewrite map_app, !map_map, qsum_app.
  assert (Hrow : forall b s,
             qsum (map (sz (b :: s)) (seq 0 (S n))) ==
             (if b then 1 else -1) + qsum (map (sz s) (seq 0 n))).
  { intros b s. cbn [seq map qsum]. rewrite <- seq_shift, map_map.
    reflexivity. }
  rewrite (qsum_ext _ (fun s => -1 + qsum (map (sz s) (seq 0 n))))
    by (intros s _; apply (Hrow false)).
  rewrite (qsum_ext (fun s => qsum (map (sz (true :: s)) (seq 0 (S n))))
                    (fun s => 1 + qsum (map (sz s) (seq 0 n))))
    by (intros s _; apply (Hrow true)).
  rewrite !qsum_plus.
  rewrite (qsum_const (fun _ : config => -1) (-1)) by (intros; reflexivity).
  rewrite (qsum_const (fun _ : config => 1) 1) by (intros; reflexivity).
  unfold config in *. rewrite !IH. ring.
Qed.

Lemma inject_nat_nonzero (n : nat) :
  (0 < n)%nat -> ~ inject_Z (Z.of_nat n) == 0.
Proof.
  intros Hn Heq. apply (Qeq_bool_neq (inject_Z (Z.of_nat n)) 0); [|exact Heq].
  unfold Qeq_bool. simpl. apply Z.eqb_neq. lia.
Qed.

(** The local estimator of H on a state with equal amplitudes. *)
Lemma H_local_estimator (L : nat) (g h c : Q) (s : config) :
  ~ c == 0 ->
  O_loc (Notebook.build_H L g h) (x_polarized c) s ==
  - (1 + h) * inject_Z (Z.of_nat L) - g * qsum (map (sz s) (seq 0 L)).
Proof.
  intro Hc. unfold O_loc. rewrite build_H_terms, qsum_flat_map.
  rewrite (qsum_ext _ (fun l => - (1 + h) + - g * sz s l)).
  - rewrite qsum_plus, qsum_scal.
    rewrite (qsum_const (fun _ : nat => - (1 + h)) (- (1 + h)))
      by (intros; reflexivity).
    rewrite length_seq. ring.
  - intros l _. unfold s_prime, x_polarized, sz. cbn.
    destruct (nth l s false); field; exact Hc.
Qed.

(** X13. The energy of the state with all spins along +x under the
    Hamiltonian the notebook builds is -(1 + h) L: every bond contributes
    -1, every longitudinal term -h, and the transverse terms average to
    zero. *)
Theorem energy_of_x_polarized_state (L : nat) (g h c : Q) :
  ~ c == 0 ->
  expectation (Notebook.build_H L g h) (x_polarized c) L ==
  - (1 + h) * inject_Z (Z.of_nat L).
Proof.
  intro Hc. unfold expectation.
  set (N := inject_Z (Z.of_nat (List.length (all_configs L)))).
  assert (HN : ~ N == 0)
    by (apply inject_nat_nonzero, all_configs_nonempty).
  rewrite (qsum_const (fun s => x_polarized c s * x_polarized c s) (c * c))
    by (intros; reflexivity).
  fold N.
  rewrite (qsum_ext _ (fun s =>
             (c * c * (- (1 + h) * inject_Z (Z.of_nat L))) +
             (- (c * c * g)) * qsum (map (sz s) (seq 0 L)))).
  - rewrite qsum_plus.
    rewrite (qsum_scal (- (c * c * g))
                       (fun s => qsum (map (sz s) (seq 0 L)))).
    rewrite sz_total.
    rewrite (qsum_const _ (c * c * (- (1 + h) * inject_Z (Z.of_nat L))))
      by (intros; reflexivity).
    fold N. field. now split.
  - intros s _. rewrite (H_local_estimator L g h c s Hc).
    unfold x_polarized. ring.
Qed.

(** *** Bounds on the polarisation *)

Lemma square_nonneg (x : Q) : 0 <= x * x.
Proof.
  destruct (Qlt_le_dec x 0) as [Hneg|Hpos].
  - setoid_replace (x * x) with ((- x) * (- x)) by ring.
    apply Qmult_le_0_compat; lra.
  - apply Qmult_le_0_compat; exact Hpos.
Qed.

Lemma product_le_half_squares (a b : Q) :
  - (a * a * (1 # 2) + b * b * (1 # 2)) <= a * b /\
  a * b <= a * a * (1 # 2) + b * b * (1 # 2).
Proof.
  pose proof (square_nonneg (a - b)) as Hm.
  pose proof (square_nonneg (a + b)) as Hp.
  setoid_replace ((a - b) * (a - b)) with (a * a - 2 * (a * b) + b * b)
    in Hm by ring.
  setoid_replace ((a + b) * (a + b)) with (a * a + 2 * (a * b) + b * b)
    in Hp by ring.
  split; lra.
Qed.

Lemma qsum_opp {A : Type} (f : A -> Q) (xs : list A) :
  qsum (map (fun x => - f x) xs) == - qsum (map f xs).
Proof.
  induction xs as [|x xs IH]; simpl; [ring | rewrite IH; ring].
Qed.

(** The sum of psi(s) psi(s with spin l flipped) over all configurations and
    sites, and the squared norm of psi. *)
Definition cross_sum (psi : config -> Q) (L : nat) : Q :=
  qsum (map (fun s => qsum (map (fun l => psi s * psi (flip l s)) (seq 0 L)))
            (all_configs L)).

Definition weight (psi : config -> Q) (L : nat) : Q :=
  qsum (map (fun s => psi s * psi s) (all_configs L)).

Definition half_squares (psi : config -> Q) (s : config) (l : nat) : Q :=
  psi s * psi s * (1 # 2) + psi (flip l s) * psi (flip l s) * (1 # 2).

Lemma half_squares_sum (psi : config -> Q) (L : nat) :
  qsum (map (fun s => qsum (map (half_squares psi s) (seq 0 L)))
            (all_configs L)) ==
  inject_Z (Z.of_nat L) * weight psi L.
Proof.
  rewrite (qsum_swap (half_squares psi)).
  rewrite (qsum_const _ (weight psi L)).
  - now rewrite length_seq.
  - intros l _. unfold half_squares. rewrite qsum_plus.
    rewrite (qsum_flip L l (fun s => psi s * psi s * (1 # 2))).
    rewrite <- qsum_plus. unfold weight. apply qsum_ext.
    intros s _. ring.
Qed.

Lemma cross_sum_bounds (psi : config -> Q) (L : nat) :
  - (inject_Z (Z.of_nat L) * weight psi L) <= cross_sum psi L /\
  cross_sum psi L <= inject_Z (Z.of_nat L) * weight psi L.
Proof.
  rewrite <- half_squares_sum. unfold cross_sum. split.
  - rewrite <- qsum_opp.
    rewrite (qsum_ext
               (fun s => - qsum (map (half_squares psi s) (seq 0 L)))
               (fun s => qsum (map (fun l => - half_squares psi s l)
                                   (seq 0 L))))
      by (intros s _; now rewrite qsum_opp).
    apply qsum_le. intros s _. apply qsum_le. intros l _.
    apply product_le_half_squares.
  - apply qsum_le. intros s _. apply qsum_le. intros l _.
    apply product_le_half_squares.
Qed.

Lemma weight_pos (psi : config -> Q) (L : nat) :
  (forall s, ~ psi s == 0) -> 0 < weight psi L.
Proof.
  intro Hpsi. unfold weight.
  pose proof (all_configs_nonempty L) as Hne.
  destruct (all_configs L) as [|s0 rest]; [simpl in Hne; lia|].
  cbn [map qsum].
  assert (H0 : 0 < psi s0 * psi s0).
  { pose proof (square_nonneg (psi s0)) as Hsq.
    destruct (Qeq_dec (psi s0 * psi s0) 0) as [Hz|Hnz]; [|lra].
    exfalso. destruct (Qmult_integral _ _ Hz); now apply (Hpsi s0). }
  assert (Hrest : 0 <= qsum (map (fun s => psi s * psi s) rest)).
  { assert (Hz : qsum (map (fun _ : config => 0) rest) == 0)
      by (rewrite (qsum_const _ 0) by (intros; reflexivity); ring).
    rewrite <- Hz. apply qsum_le. intros s _. apply square_nonneg. }
  lra.
Qed.

(** The numerator of the expectation value of a sum of single spin flips
    with a common coefficient. *)
Lemma flip_sum_numerator (a : Q) (psi : config -> Q) (L : nat) :
  (forall s, ~ psi s == 0) ->
  qsum (map (fun s => psi s * psi s *
                      O_loc (map (fun l => scal_opstr a [Sx l]) (seq 0 L))
                            psi s)
            (all_configs L)) ==
  a * cross_sum psi L.
Proof.
  intro Hpsi. unfold cross_sum. rewrite <- qsum_scal.
  apply qsum_ext. intros s _. unfold O_loc. rewrite map_map.
  rewrite <- !qsum_scal. apply qsum_ext. intros l _.
  unfold s_prime. cbn. field. apply Hpsi.
Qed.

(** X14. For every real wave function without zero amplitudes the
    expectation value of X lies between -1 and 1: with the coefficients 1/L
    the polarisation is normalised, and the value 1 of the state with all
    spins along +x is the largest possible. *)
Theorem polarization_between_minus_one_and_one
        (L : nat) (psi : config -> Q) :
  (0 < L)%nat -> (forall s, ~ psi s == 0) ->
  -1 <= expectation (Notebook.build_X L) psi L /\
  expectation (Notebook.build_X L) psi L <= 1.
Proof.
  intros HL Hpsi. unfold expectation. fold (weight psi L).
  rewrite build_X_terms, (flip_sum_numerator _ psi L Hpsi).
  pose proof (weight_pos psi L Hpsi) as HW.
  pose proof (inject_nat_nonzero L HL) as HLq.
  assert (HLpos : 0 < inject_Z (Z.of_nat L)).
  { change 0 with (inject_Z 0). rewrite <- Zlt_Qlt. lia. }
  destruct (cross_sum_bounds psi L) as [Hlo Hhi].
  assert (Hscale : forall k,
             1 / inject_Z (Z.of_nat L) *
             (inject_Z (Z.of_nat L) * k) == k)
    by (intro k; field; exact HLq).
  split.
  - apply Qle_shift_div_l; [exact HW|].
    rewrite <- (Hscale (-1 * weight psi L)).
    apply Qmult_le_l; [apply Qlt_shift_div_l; lra | lra].
  - apply Qle_shift_div_r; [exact HW|].
    rewrite <- (Hscale (1 * weight psi L)).
    apply Qmult_le_l; [apply Qlt_shift_div_l; lra | lra].
Qed.

Lemma polarization_between_minus_one_and_one_witness :
  (0 < 2)%nat /\
  -1 <= expectation (Notebook.build_X 2)
                    (fun s => if nth 0 s false then 1 else 2) 2 /\
  expectation (Notebook.build_X 2)
              (fun s => if nth 0 s false then 1 else 2) 2 <= 1.
Proof.
  assert (H2 : (0 < 2)%nat) by lia.
  split; [exact H2|].
  apply (polarization_between_minus_one_and_one
           2 (fun s => if nth 0 s false then 1 else 2) H2).
  intros s. destruct (nth 0 s false); intro Heq; discriminate Heq.
Defined.

(** X15. The state with all spins along +x is a ground state of the
    Hamiltonian [H_init] of [initialize_in_X_state]: its energy is -L, and no
    real wave function without zero amplitudes has a lower one. *)
Theorem x_polarized_state_minimises_H_init
        (L : nat) (c : Q) (psi : config -> Q) :
  ~ c == 0 -> (forall s, ~ psi s == 0) ->
  expectation (Notebook.build_H_init L) (x_polarized c) L ==
    - inject_Z (Z.of_nat L) /\
  - inject_Z (Z.of_nat L) <= expectation (Notebook.build_H_init L) psi L.
Proof.
  intros Hc Hpsi. unfold expectation. rewrite build_H_init_terms. split.
  - rewrite flip_sum_numerator by (intro s; exact Hc).
    fold (weight (x_polarized c) L).
    assert (Hcross : cross_sum (x_polarized c) L ==
                     inject_Z (Z.of_nat L) * weight (x_polarized c) L).
    { unfold cross_sum, weight, x_polarized.
      rewrite <- qsum_scal. apply qsum_ext. intros s _.
      rewrite (qsum_const _ (c * c)) by (intros; reflexivity).
      now rewrite length_seq. }
    rewrite Hcross.
    pose proof (weight_pos (x_polarized c) L (fun _ => Hc)) as HW.
    field. lra.
  - rewrite (flip_sum_numerator _ psi L Hpsi). fold (weight psi L).
    pose proof (weight_pos psi L Hpsi) as HW.
    destruct (cross_sum_bounds psi L) as [_ Hhi].
    apply Qle_shift_div_l; [exact HW|]. lra.
Qed.

Lemma x_polarized_state_minimises_H_init_witness :
  expectation Notebook.H_init (x_polarized 1) Notebook.L == - (8 # 1) /\
  - (8 # 1) <= expectation Notebook.H_init
                           (fun s => if nth 0 s false then 1 else 2)
                           Notebook.L.
Proof.
  assert (H1 : ~ 1 == 0) by (intro H; discriminate H).
  apply (x_polarized_state_minimises_H_init
           Notebook.L 1 (fun s => if nth 0 s false then 1 else 2) H1).
  intros s. destruct (nth 0 s false); intro Heq; discriminate Heq.
Defined.

Lemma energy_of_x_polarized_state_witness :
  ~ 1 == 0 /\
  expectation Notebook.H (x_polarized 1) Notebook.L == - (10 # 1).
Proof.
  assert (H1 : ~ 1 == 0) by (intro H; discriminate H).
  split; [exact H1|].
  rewrite (energy_of_x_polarized_state
             Notebook.L Notebook.g Notebook.h 1 H1).
  reflexivity.
Defined.

(** *** The shape of the operators *)

(** The pairs of sites joined by the two-site terms of an operator. *)
Definition bond_sites (O : BranchFreeOperator) : list (nat * nat) :=
  flat_map (fun tm => match ops tm with
                      | [Sx a; Sx b] => [(a, b)]
                      | _ => []
                      end) O.

Lemma next_site_rotation (L : nat) :
  (0 < L)%nat ->
  map (fun l => (l + 1) mod L) (seq 0 L) = seq 1 (L - 1) ++ [0%nat].
Proof.
  intro HL. destruct L as [|n]; [lia|].
  replace (S n - 1)%nat with n by lia.
  rewrite seq_S, map_app. cbn [map]. rewrite Nat.add_0_l.
  replace ((n + 1) mod S n) with 0%nat
    by (replace (n + 1)%nat with (S n) by lia;
        symmetry; apply Nat.Div0.mod_same).
  apply (f_equal (fun xs => xs ++ [0%nat])).
  rewrite <- seq_shift. apply map_ext_in.
  intros l Hl. apply in_seq in Hl.
  rewrite Nat.mod_small by lia. lia.
Qed.

Lemma length_flat_map_three {A : Type} (f : A -> list term) (xs : list A) :
  (forall x, List.length (f x) = 3%nat) ->
  List.length (flat_map f xs) = (3 * List.length xs)%nat.
Proof.
  intro Hf. induction xs as [|x xs IH]; [reflexivity|].
  cbn [flat_map]. rewrite length_app, Hf, IH. simpl. lia.
Qed.

Lemma bond_sites_H (L : nat) (g h : Q) :
  bond_sites (Notebook.build_H L g h) =
  map (fun l => (l, (l + 1) mod L)) (seq 0 L).
Proof.
  rewrite build_H_terms. unfold bond_sites.
  induction (seq 0 L) as [|l ls IH]; [reflexivity|].
  cbn [flat_map map app ops]. cbn [flat_map map app ops] in IH.
  now rewrite IH.
Qed.

(** X16. The Hamiltonian has three terms per site, and its bonds close a
    ring: site l is joined to site l+1 and the last site to site 0.  From
    two sites on, no bond joins a site to itself. *)
Theorem hamiltonian_bonds_form_a_ring (L : nat) (g h : Q) :
  (0 < L)%nat ->
  List.length (Notebook.build_H L g h) = (3 * L)%nat /\
  bond_sites (Notebook.build_H L g h) =
    combine (seq 0 L) (seq 1 (L - 1) ++ [0%nat]) /\
  ((2 <= L)%nat ->
   forall a b, In (a, b) (bond_sites (Notebook.build_H L g h)) -> a <> b).
Proof.
  intro HL. split; [|split].
  - rewrite build_H_terms, length_flat_map_three by reflexivity.
    now rewrite length_seq.
  - rewrite bond_sites_H, <- next_site_rotation by exact HL.
    induction (seq 0 L) as [|l ls IH]; [reflexivity|].
    simpl. now rewrite IH.
  - intros H2 a b Hin. rewrite bond_sites_H in Hin.
    apply in_map_iff in Hin as [l [Heq Hl]]. injection Heq as <- <-.
    apply in_seq in Hl.
    destruct (Nat.eq_dec (l + 1) L) as [Hlast|Hmid].
    + rewrite Hlast, Nat.Div0.mod_same. lia.
    + rewrite Nat.mod_small by lia. lia.
Qed.

Lemma hamiltonian_bonds_form_a_ring_witness :
  (0 < Notebook.L)%nat /\
  List.length Notebook.H = 24%nat /\
  bond_sites Notebook.H =
    [(0, 1); (1, 2); (2, 3); (3, 4); (4, 5); (5, 6); (6, 7); (7, 0)]%nat.
Proof.
  assert (H8 : (0 < Notebook.L)%nat) by (unfold Notebook.L; lia).
  split; [exact H8|].
  destruct (hamiltonian_bonds_form_a_ring Notebook.L Notebook.g Notebook.h H8)
    as (Hlen & Hbonds & _).
  split; [exact Hlen | exact Hbonds].
Defined.

Lemma flip_length (l : nat) (s : config) :
  List.length (flip l s) = List.length s.
Proof.
  revert l. induction s as [|b s IH]; intros [|l]; simpl; auto.
Qed.

Lemma flip_at (l : nat) (s : config) :
  (l < List.length s)%nat ->
  nth l (flip l s) false = negb (nth l s false).
Proof.
  revert l. induction s as [|b s IH]; intros [|l] Hl; simpl in *;
    try lia; [reflexivity|].
  apply IH. lia.
Qed.

Lemma flip_elsewhere (l j : nat) (s : config) :
  j <> l -> nth j (flip l s) false = nth j s false.
Proof.
  revert l j. induction s as [|b s IH]; intros [|l] [|j] Hne; simpl;
    try reflexivity; try lia.
  apply IH. lia.
Qed.

(** X17. For a configuration s of L sites, [X.get_s_primes(s)] lists L
    connected configurations: the l-th is s with spin l flipped and every
    other spin as it is, with matrix element 1/L. *)
Theorem X_connects_single_spin_flips (L l : nat) (s : config) :
  List.length s = L -> (l < L)%nat ->
  List.length (map (fun tm => s_prime tm s) (Notebook.build_X L)) = L /\
  exists s' m,
    nth_error (map (fun tm => s_prime tm s) (Notebook.build_X L)) l
    = Some (s', m) /\
    m == 1 / inject_Z (Z.of_nat L) /\
    List.length s' = L /\
    nth l s' false = negb (nth l s false) /\
    forall j, j <> l -> nth j s' false = nth j s false.
Proof.
  intros Hs Hl. rewrite build_X_terms, map_map.
  split; [now rewrite length_map, length_seq|].
  exists (flip l s), (1 / inject_Z (Z.of_nat L) * 1).
  split; [|split; [ring|split; [|split]]].
  - rewrite nth_error_map, nth_error_nth' with (d := 0%nat)
      by (rewrite length_seq; exact Hl).
    rewrite seq_nth by exact Hl. reflexivity.
  - now rewrite flip_length.
  - apply flip_at. lia.
  - intros j Hj. now apply flip_elsewhere.
Qed.

Lemma X_connects_single_spin_flips_witness :
  exists s' m,
    nth_error (map (fun tm => s_prime tm (repeat false 8)) Notebook.X) 2
    = Some (s', m) /\
    m == 1 # 8 /\
    nth 2 s' false = true.
Proof.
  destruct (X_connects_single_spin_flips 8 2 (repeat false 8) eq_refl)
    as (_ & s' & m & Hnth & Hm & _ & Hflip & _); [lia|].
  exists s', m. split; [exact Hnth|]. split; [exact Hm | exact Hflip].
Defined.

End Operators.

(** ** The two TDVP equations *)

Section TdvpFacts.

Import Tdvp.

(** C6. The TDVP equation of the ground-state search is built with the
    real prefactor [rhsPrefactor=1.0] and [makeReal='real'], the one of the
    real-time evolution with the purely imaginary prefactor
    [rhsPrefactor=1.j] and [makeReal='imag']; the force vector is returned
    multiplied entry by entry by the prefactor, so unchanged in the first
    case and multiplied by i in the second. *)
Theorem prefactor_real_for_ground_state_imaginary_for_evolution :
  rhsPrefactor gsEquation = Py.Float 1 /\
  makeReal gsEquation = "real"%string /\
  is_real (rhsPrefactor gsEquation) = true /\
  rhsPrefactor tdvpEquation = Py.Complex 0 1 /\
  makeReal tdvpEquation = "imag"%string /\
  is_purely_imaginary (rhsPrefactor tdvpEquation) = true /\
  (forall eq F,
      scale_force eq F = map (Cx.mul (Cx.of_num (rhsPrefactor eq))) F) /\
  (forall F, Forall2 Cx.eq (scale_force gsEquation F) F) /\
  (forall F, Forall2 Cx.eq (scale_force tdvpEquation F)
                     (map (fun z => (- Cx.im z, Cx.re z)) F)).
Proof.
  repeat (split; [reflexivity|]). split.
  - induction F as [|z F IH]; simpl; constructor; [|exact IH].
    unfold Cx.eq, Cx.mul, Cx.re, Cx.im. simpl. split; ring.
  - induction F as [|z F IH]; simpl; constructor; [|exact IH].
    unfold Cx.eq, Cx.mul, Cx.re, Cx.im. simpl. split; ring.
Qed.

End TdvpFacts.

(** ** The solver on a zero force vector *)

Section SolverFacts.

Variable pinv : Cx.Matrix -> Q -> Cx.Matrix.
Variable sqrtQ : Q -> Q.
Variable tdvp_deviation : Cx.Matrix -> Cx.Vec -> Cx.Vec -> Q.

Lemma norm2_zeros (n : nat) : Cx.norm2 (Cx.zeros n) == 0.
Proof.
  induction n as [|n IH]; simpl; [reflexivity|].
  unfold Cx.zeros in IH. rewrite IH. unfold Cx.re, Cx.im. simpl. ring.
Qed.

Lemma dot_zeros (row : Cx.Vec) (n : nat) :
  Cx.eq (Cx.dot row (Cx.zeros n)) Cx.zero.
Proof.
  revert n. induction row as [|a row IH]; intro n.
  - split; reflexivity.
  - destruct n as [|n]; [split; reflexivity|].
    destruct (IH n) as [Hre Him].
    unfold Cx.zeros in *. simpl.
    unfold Cx.eq, Cx.add, Cx.mul, Cx.re, Cx.im in *. simpl in *.
    rewrite Hre, Him. split; ring.
Qed.

Lemma mat_vec_zeros (M : Cx.Matrix) (n : nat) :
  Forall (fun z => Cx.eq z Cx.zero) (Cx.mat_vec M (Cx.zeros n)).
Proof.
  unfold Cx.mat_vec. induction M as [|row M IH]; simpl; constructor.
  - apply dot_zeros.
  - exact IH.
Qed.

(** C7. For every tensor S, every shift and every cut-off, [solve] on the
    zero force vector does not fault and returns a velocity with all
    entries zero, TDVP error 0 and linear residual 0: the zero test on
    ||F|| is taken before any division by it. *)
Theorem solve_zero_force (S : Cx.Matrix) (n : nat) (shift svdTol : Q) :
  exists v,
    solve pinv sqrtQ tdvp_deviation S (Cx.zeros n) shift svdTol
    = Some (v, 0, 0) /\
    Forall (fun z => Cx.eq z Cx.zero) v /\
    List.length v = List.length (pinv (add_diag shift 0 S) svdTol).
Proof.
  exists (Cx.mat_vec (pinv (add_diag shift 0 S) svdTol) (Cx.zeros n)).
  split; [|split].
  - unfold solve.
    now rewrite (Qeq_eq_bool _ _ (norm2_zeros n)).
  - apply mat_vec_zeros.
  - unfold Cx.mat_vec. apply length_map.
Qed.

End SolverFacts.

(** ** Saving and loading *)

Section PersistenceFacts.

Variables Obj Bytes : Type.
Variable pickle_dump : Obj -> Bytes.
Variable pickle_load : Bytes -> option Obj.
Variable str_float : Q -> string.

Lemma string_length_append (a b : string) :
  String.length (a ++ b) = (String.length a + String.length b)%nat.
Proof.
  induction a as [|c a IH]; simpl; [reflexivity | now rewrite IH].
Qed.

Lemma append_inv_tail (a b s : string) :
  (a ++ s)%string = (b ++ s)%string -> a = b.
Proof.
  revert b. induction a as [|c a IH]; intros [|c' b] Heq; simpl in Heq.
  - reflexivity.
  - apply (f_equal String.length) in Heq. simpl in Heq.
    rewrite string_length_append in Heq. lia.
  - apply (f_equal String.length) in Heq. simpl in Heq.
    rewrite string_length_append in Heq. lia.
  - injection Heq as -> Heq. f_equal. now apply IH.
Qed.

Lemma append_inv_head (a x y : string) :
  (a ++ x)%string = (a ++ y)%string -> x = y.
Proof.
  induction a as [|c a IH]; simpl; intro Heq; [exact Heq|].
  injection Heq as Heq. now apply IH.
Qed.

Lemma to_uint_not_Nil (n : nat) : Nat.to_uint n <> Decimal.Nil.
Proof.
  intro Heq. pose proof (DecimalNat.Unsigned.of_to n) as Hn.
  rewrite Heq in Hn. simpl in Hn. subst n. discriminate Heq.
Qed.

(** [str] prints different integers differently. *)
Lemma str_int_inj (n n' : nat) : Py.str_int n = Py.str_int n' -> n = n'.
Proof.
  unfold Py.str_int. intro Heq.
  apply DecimalNat.Unsigned.to_uint_inj.
  pose proof (NilZero.usu _ (to_uint_not_Nil n)) as Hn.
  pose proof (NilZero.usu _ (to_uint_not_Nil n')) as Hn'.
  rewrite Heq in Hn. rewrite Hn in Hn'. now injection Hn'.
Qed.

(** X12. The system size is part of the file name: data saved while the
    global [L] had one value is not what [load_from_disk] reads after [L] was
    changed, with [g] and [h] as they were; the load sees the disk as if the
    save had not happened. *)
Theorem load_after_changing_L_misses_the_save
        (G G' : Globals) (data : Obj) (fn : string) (d : Disk Bytes) :
  gL G <> gL G' -> gg G = gg G' -> gh G = gh G' ->
  load_from_disk Obj Bytes pickle_load str_float G' fn
    (save_to_disk Obj Bytes pickle_dump str_float G data fn d) =
  load_from_disk Obj Bytes pickle_load str_float G' fn d.
Proof.
  intros HL Hg Hh. unfold load_from_disk, save_to_disk, write_wb. simpl.
  destruct (String.eqb_spec (file_name str_float G fn)
                            (file_name str_float G' fn)) as [Heq|_];
    [|reflexivity].
  exfalso. apply HL. unfold file_name in Heq. rewrite <- Hg, <- Hh in Heq.
  apply append_inv_head in Heq. simpl in Heq. injection Heq as Heq.
  apply append_inv_tail in Heq. exact (str_int_inj _ _ Heq).
Qed.

End PersistenceFacts.

(** ** Saving and loading on a file system

    The journal above keys files by their names and lets every write
    succeed.  Here a path is first resolved to a file, so that two names
    can reach the same file and a path in a missing directory reaches none,
    and [pickle.dump] can raise after the file was opened.  A file that
    was written can be opened for reading, and only the two functions
    touch the files. *)

Module Fs.

Section Files.

Variables Obj Bytes File : Type.
Variable File_eq_dec : forall a b : File, {a = b} + {a <> b}.

(** The file a path names; [None] when [open] raises for the path, as for a
    prefix in a directory that does not exist. *)
Variable resolve : string -> option File.

(** [pickle.dump]: [None] when it raises, and then what it had written to
    the file before raising. *)
Variable pickle_dump : Obj -> option Bytes.
Variable partial_dump : Obj -> Bytes.
Variable pickle_load : Bytes -> option Obj.
Variable str_float : Q -> string.

(** The contents of the files that exist. *)
Definition Disk : Type := File -> option Bytes.

Definition empty_disk : Disk := fun _ => None.

Definition write (f : File) (b : Bytes) (d : Disk) : Disk :=
  fun f' => if File_eq_dec f' f then Some b else d f'.

(** [save_to_disk(data, fn)]: the disk afterwards, and whether the call
    returned normally.  Mode ['wb'] empties the file on opening. *)
Definition save_to_disk (G : Globals) (data : Obj) (fn : string) (d : Disk)
  : Disk * bool :=
  match resolve (file_name str_float G fn) with
  | None => (d, false)
  | Some f =>
      match pickle_dump data with
      | Some b => (write f b d, true)
      | None => (write f (partial_dump data) d, false)
      end
  end.

(** [load_from_disk(fn)]; [None] when [open] or [pickle.load] raises. *)
Definition load_from_disk (G : Globals) (fn : string) (d : Disk)
  : option Obj :=
  match resolve (file_name str_float G fn) with
  | None => None
  | Some f =>
      match d f with
      | None => None
      | Some b => pickle_load b
      end
  end.

(** A sequence of [save_to_disk] calls, oldest first, each in a cell of its
    own: a call that raises does not stop the later ones. *)
Definition save_all (G : Globals) (calls : list (Obj * string)) (d : Disk)
  : Disk :=
  fold_left (fun d' c => fst (save_to_disk G (fst c) (snd c) d')) calls d.

Lemma save_elsewhere (G : Globals) (x : Obj) (fn' : string) (f : File)
      (d : Disk) :
  resolve (file_name str_float G fn') <> Some f ->
  fst (save_to_disk G x fn' d) f = d f.
Proof.
  intro Hne. unfold save_to_disk.
  destruct (resolve (file_name str_float G fn')) as [f'|]; [|reflexivity].
  assert (Hff : f <> f') by (intro Heq; apply Hne; now subst).
  destruct (pickle_dump x); simpl; unfold write;
    destruct (File_eq_dec f f'); congruence.
Qed.

Lemma save_all_elsewhere (G : Globals) (calls : list (Obj * string))
      (f : File) (d : Disk) :
  Forall (fun c => resolve (file_name str_float G (snd c)) <> Some f) calls ->
  save_all G calls d f = d f.
Proof.
  intro Hcalls. revert d. induction Hcalls as [|c calls Hc _ IH]; intro d.
  - reflexivity.
  - unfold save_all in *. simpl. rewrite IH. now apply save_elsewhere.
Qed.

(** C8, amended. Under unchanged globals [L], [g], [h], [load_from_disk(fn)]
    returns an object equal to the data most recently passed to
    [save_to_disk(data, fn)], provided that call returned normally, the data
    survives pickling, and no later call wrote to the same file, under this
    or any other prefix: both functions build the same file name
    fn + "L=" + str(L) + "_g=" + str(g) + "_h=" + str(h) + ".pkl" from the
    globals. *)
Theorem save_load_round_trip
        (G : Globals) (data : Obj) (fn : string) (d d1 : Disk)
        (later : list (Obj * string)) :
  save_to_disk G data fn d = (d1, true) ->
  (forall b, pickle_dump data = Some b -> pickle_load b = Some data) ->
  Forall (fun c => resolve (file_name str_float G (snd c)) <>
                   resolve (file_name str_float G fn)) later ->
  load_from_disk G fn (save_all G later d1) = Some data /\
  file_name str_float G fn =
    (fn ++ "L=" ++ Py.str_int (gL G) ++ "_g=" ++ str_float (gg G) ++
        "_h=" ++ str_float (gh G) ++ ".pkl")%string.
Proof.
  intros Hsave Hpickle Hlater. split; [|reflexivity].
  unfold save_to_disk in Hsave. unfold load_from_disk.
  destruct (resolve (file_name str_float G fn)) as [f|] eqn:Ef;
    [|discriminate].
  destruct (pickle_dump data) as [b|] eqn:Eb; [|discriminate].
  injection Hsave as <-.
  rewrite save_all_elsewhere by exact Hlater.
  unfold write. destruct (File_eq_dec f f); [|congruence].
  now apply Hpickle.
Qed.

End Files.

(** A file system in which "./" in front of a name changes nothing and the
    directory "nodir" does not exist; integers pickled as themselves. *)
Definition strip_dot (name : string) : string :=
  if String.prefix "./" name
  then String.substring 2 (String.length name - 2) name
  else name.

Definition resolve_here (name : string) : option string :=
  if String.prefix "nodir/" name then None else Some (strip_dot name).

Definition save_nat (data : nat) (fn : string) (d : Disk nat string)
  : Disk nat string * bool :=
  save_to_disk nat nat string string_dec resolve_here Some (fun x => x)
               Py.str_float (mkGlobals 8 (3 # 10) (25 # 100)) data fn d.

Definition load_nat (fn : string) (d : Disk nat string) : option nat :=
  load_from_disk nat nat string resolve_here Some Py.str_float
                 (mkGlobals 8 (3 # 10) (25 # 100)) fn d.

Lemma save_load_round_trip_witness :
  save_nat 42 "run_" (empty_disk nat string) =
    (fst (save_nat 42 "run_" (empty_disk nat string)), true) /\
  load_nat "run_"
    (fst (save_nat 7 "other_"
            (fst (save_nat 42 "run_" (empty_disk nat string)))))
  = Some 42%nat.
Proof.
  assert (Hsave : save_nat 42 "run_" (empty_disk nat string) =
                  (fst (save_nat 42 "run_" (empty_disk nat string)), true))
    by reflexivity.
  split; [exact Hsave|].
  apply (save_load_round_trip
           nat nat string string_dec resolve_here Some (fun x => x) Some
           Py.str_float (mkGlobals 8 (3 # 10) (25 # 100)) 42%nat "run_"
           (empty_disk nat string) _ [(7%nat, "other_"%string)] Hsave).
  - intros b Hb. injection Hb as <-. reflexivity.
  - constructor; [|constructor]. vm_compute. discriminate.
Defined.

(** C8 as worded fails for a prefix in a directory that does not exist,
    where [save_to_disk] raises and there is nothing to load, and when a
    later save under another prefix names the same file. *)
Lemma round_trip_fails_without_file_or_with_alias :
  save_nat 42 "nodir/run_" (empty_disk nat string)
    = (fst (save_nat 42 "nodir/run_" (empty_disk nat string)), false) /\
  load_nat "nodir/run_" (fst (save_nat 42 "nodir/run_" (empty_disk nat string)))
    = None /\
  "./run_"%string <> "run_"%string /\
  load_nat "run_"
    (fst (save_nat 7 "./run_"
            (fst (save_nat 42 "run_" (empty_disk nat string)))))
    = Some 7%nat.
Proof.
  split; [reflexivity|]. split; [reflexivity|].
  split; [discriminate|]. vm_compute. reflexivity.
Qed.

End Fs.

(** The journal of the driver is this file system when every name is a file
    of its own and no call raises. *)
Lemma journal_is_plain_file_system
      (Obj Bytes : Type) (dump : Obj -> Bytes) (load : Bytes -> option Obj)
      (str_float : Q -> string) (G : Globals) (data : Obj) (fn : string)
      (j : list (string * Bytes)) :
  let d : Fs.Disk Bytes string := fun f => open_rb f j in
  load_from_disk Obj Bytes load str_float G fn j =
    Fs.load_from_disk Obj Bytes string Some load str_float G fn d /\
  snd (Fs.save_to_disk Obj Bytes string string_dec Some
         (fun x => Some (dump x)) dump str_float G data fn d) = true /\
  forall f,
    open_rb f (save_to_disk Obj Bytes dump str_float G data fn j) =
    fst (Fs.save_to_disk Obj Bytes string string_dec Some
           (fun x => Some (dump x)) dump str_float G data fn d) f.
Proof.
  intro d. split; [reflexivity|]. split; [reflexivity|].
  intro f. unfold save_to_disk, Fs.save_to_disk, write_wb, Fs.write. simpl.
  destruct (string_dec f (file_name str_float G fn)) as [->|Hne].
  - now rewrite String.eqb_refl.
  - destruct (String.eqb_spec (file_name str_float G fn) f) as [He|_];
      [symmetry in He; contradiction | reflexivity].
Qed.

Arguments t {Params Snapshot Stepper World Bytes} s.
Arguments dt {Params Snapshot Stepper World Bytes} s.
Arguments psi {Params Snapshot Stepper World Bytes} s.
Arguments stepper {Params Snapshot Stepper World Bytes} s.
Arguments world {Params Snapshot Stepper World Bytes} s.
Arguments data {Params Snapshot Stepper World Bytes} s.
Arguments disk {Params Snapshot Stepper World Bytes} s.
Arguments parameters {Snapshot} d.
Arguments observables_ {Snapshot} d.
Arguments residuals {Snapshot} d.
Arguments state_of {Params Snapshot Stepper World Bytes} o.
Arguments steps_taken {Params Snapshot Stepper World Bytes} st.
Arguments Finished {Params Snapshot Stepper World Bytes} st.
Arguments Raised {Params Snapshot Stepper World Bytes} st.
Arguments OutOfFuel {Params Snapshot Stepper World Bytes} st.
Arguments Next {Params Snapshot Stepper World Bytes} st.
Arguments Exit {Params Snapshot Stepper World Bytes}.
Arguments Fault {Params Snapshot Stepper World Bytes}.
Arguments lengths {Snapshot} d.

(** ** The notebook, run from top to bottom *)

Section NotebookRun.

Import Op.

Variables Params Snapshot Stepper World Bytes : Type.
Variable unfreeze : Params -> Snapshot.
Variable AdaptiveHeun : Q -> Q -> Stepper.
Variable S_dot : World -> Cx.Vec -> Cx.Vec.
Variable stepper_step :
  Stepper -> World -> Q -> Params -> BranchFreeOperator ->
  (World -> Cx.Vec -> Q) -> option (Params * Q * Stepper * World).
Variable get_residuals : World -> Q * Q.
Variable measure :
  list (string * BranchFreeOperator) -> Params -> World ->
  (string -> Q) * World.
Variable pickle_dump : Data Snapshot -> Bytes.

(** [ground_state_search(psi, H_init, gsEquation, sampler, numSteps=200)]
    of jVMC.util: it leaves the network at the parameters it found. *)
Variable ground_state_search :
  Params -> BranchFreeOperator -> Tdvp.TDVP -> Tdvp.sampler_kind -> nat ->
  World -> Params * World.

Definition globals : Globals :=
  mkGlobals Notebook.L Notebook.g Notebook.h.

(** [observables = {"X": X}] and then [observables["energy"] = H]. *)
Definition observables : list (string * BranchFreeOperator) :=
  [("X"%string, Notebook.X); ("energy"%string, Notebook.H)].

Definition initialize_in_X_state (psi : Params) (w : World)
  : Params * World :=
  ground_state_search psi Notebook.H_init Tdvp.gsEquation
                      Tdvp.ExactSampler Notebook.numSteps w.

(** The state at the first loop test. *)
Definition notebook_initial (psi_init : Params) (w_init : World)
           (dk0 : Disk Bytes) : State Params Snapshot Stepper World Bytes :=
  let (psi0, w0) := initialize_in_X_state psi_init w_init in
  initial Params Snapshot Stepper World Bytes unfreeze AdaptiveHeun measure
          Py.str_float Notebook.dt0 Notebook.tol Notebook.width globals
          observables pickle_dump psi0 w0 dk0.

Definition notebook_loop (fuel : nat)
           (st : State Params Snapshot Stepper World Bytes)
  : Outcome Params Snapshot Stepper World Bytes :=
  run_loop Params Snapshot Stepper World Bytes unfreeze S_dot stepper_step
           get_residuals measure Notebook.tmax Notebook.H observables
           fuel st.

Definition notebook (fuel : nat) (psi_init : Params) (w_init : World)
           (dk0 : Disk Bytes) : Outcome Params Snapshot Stepper World Bytes :=
  let (psi0, w0) := initialize_in_X_state psi_init w_init in
  time_evolution Params Snapshot Stepper World Bytes unfreeze AdaptiveHeun
                 S_dot stepper_step get_residuals measure Py.str_float
                 Notebook.dt0 Notebook.tmax Notebook.tol Notebook.width
                 globals Notebook.H observables pickle_dump
                 fuel psi0 w0 dk0.



(** [psi(s)]: the amplitude that the network with parameters [p] gives to
    the configuration [s]; real in this model. *)
Variable wave_function : Params -> config -> Q.






End NotebookRun.


(** ** A small instance of the external objects

    A network with one parameter, a tensor equal to the identity, and a
    stepper that accepts a step of 0.5 at every call. *)

Module Toy.

Import Op.

Definition unfreeze (p : Q) : Q := p.
Definition AdaptiveHeun (timeStep tol : Q) : Q := timeStep.
Definition S_dot (w : unit) (v : Cx.Vec) : Cx.Vec := v.
Definition get_residuals (w : unit) : Q * Q := (0, 0).
Definition measure (obs : list (string * BranchFreeOperator)) (p : Q)
           (w : unit) : (string -> Q) * unit := (fun _ => p, w).
Definition pickle_dump (d : Data Q) : Data Q := d.
Definition pickle_load (b : Data Q) : option (Data Q) := Some b.
Definition ground_state_search (p : Q) (H : BranchFreeOperator)
           (eq : Tdvp.TDVP) (s : Tdvp.sampler_kind) (n : nat) (w : unit)
  : Q * unit := (p, w).

Definition step_half (stp : Q) (w : unit) (t p : Q)
           (H : BranchFreeOperator) (nf : unit -> Cx.Vec -> Q)
  : option (Q * Q * Q * unit) :=
  Some (p, 1 # 2, stp, w).

Definition St : Type := State Q Q Q unit (Data Q).

(** The notebook's cell with the stepper of constant step 0.5. *)
Definition init : St :=
  notebook_initial Q Q Q unit (Data Q) unfreeze AdaptiveHeun measure
                   pickle_dump ground_state_search 0 tt [].

Definition step (st : St) : step_result Q Q Q unit (Data Q) :=
  loop_step Q Q Q unit (Data Q) unfreeze S_dot step_half get_residuals
            measure Notebook.tmax Notebook.H
            (observables) st.

Definition at_step (n : nat) : St :=
  match after Q Q Q unit (Data Q) unfreeze S_dot step_half get_residuals
              measure Notebook.tmax Notebook.H observables n init with
  | Some s => s
  | None => init
  end.

Definition loop_end : St :=
  state_of (notebook_loop Q Q Q unit (Data Q) unfreeze S_dot step_half
                          get_residuals measure 10 init).

Definition cell_end : St :=
  state_of (notebook Q Q Q unit (Data Q) unfreeze AdaptiveHeun S_dot
                     step_half get_residuals measure pickle_dump
                     ground_state_search 10 0 tt []).

(** The claim's reading of persistence: between two states of a run the
    disk receives one write per step taken. *)
Definition saved_once_per_step (s_before s_after : St) : Prop :=
  List.length (disk s_after) =
  (List.length (disk s_before) +
   (steps_taken s_after - steps_taken s_before))%nat.

(** *** The theorems on this instance *)


Lemma step_appends_rows_and_run_saves_twice_witness :
  step init = Next (at_step 1) /\
  disk (at_step 1) = disk init /\
  List.length (observables_ (data (at_step 1))) = 2%nat /\
  List.length (disk cell_end) = 2%nat.
Proof.
  assert (H1 : step init = Next (at_step 1)) by (vm_compute; reflexivity).
  assert (H2 : time_evolution Q Q Q unit (Data Q) unfreeze AdaptiveHeun
                 S_dot step_half get_residuals measure Py.str_float
                 Notebook.dt0 Notebook.tmax Notebook.tol Notebook.width
                 (globals) Notebook.H observables pickle_dump 10 0 tt []
               = Finished cell_end) by (vm_compute; reflexivity).
  destruct (step_appends_rows_and_run_saves_twice
              Q Q Q unit (Data Q) unfreeze AdaptiveHeun S_dot step_half
              get_residuals measure Py.str_float Notebook.dt0
              Notebook.tmax Notebook.tol Notebook.width globals
              Notebook.H observables pickle_dump 0 tt []) as [Hrow Hsave].
  destruct (Hrow init (at_step 1) H1)
    as (dp & stp' & w1 & obs & w2 & _ & _ & Hobs & _ & _ & Hdisk).
  split; [exact H1|]. split; [exact Hdisk|]. split.
  - rewrite Hobs, length_app. reflexivity.
  - rewrite (Hsave 10%nat cell_end H2). reflexivity.
Defined.

Lemma norm_function_is_tensor_form_witness :
  step init = Next (at_step 1) /\
  exists dp stp' w1,
    step_half (stepper init) (world init) (t init) (psi init) Notebook.H
      (fun w v => Cx.re (Cx.dot (map Cx.conj v) (S_dot w v)))
    = Some (dp, dt (at_step 1), stp', w1).
Proof.
  assert (H1 : step init = Next (at_step 1)) by (vm_compute; reflexivity).
  split; [exact H1|].
  destruct (norm_function_is_tensor_form
              Q Q Q unit (Data Q) unfreeze S_dot step_half get_residuals
              measure Notebook.tmax Notebook.H observables)
    as (_ & Hcall & _).
  exact (Hcall init (at_step 1) H1).
Defined.



(** The values of [data] inside the first pass of the toy run. *)
Definition first_pass_points : list (Data Q) :=
  match body_data_points Q Q Q unit (Data Q) unfreeze S_dot step_half get_residuals
                         measure Notebook.H observables init with
  | Some points => points
  | None => []
  end.

Lemma series_lengths_hold_between_passes_witness :
  step init = Next (at_step 1) /\
  lengths (data init) = (1, 1, 0)%nat /\
  map lengths first_pass_points = [(2, 1, 0); (2, 2, 0); (2, 2, 1)]%nat.
Proof.
  assert (H0 : after Q Q Q unit (Data Q) unfreeze S_dot step_half
                     get_residuals measure Notebook.tmax Notebook.H
                     observables 0 init = Some init) by reflexivity.
  assert (H1 : step init = Next (at_step 1)) by (vm_compute; reflexivity).
  destruct (series_lengths_hold_between_passes
              Q Q Q unit (Data Q) unfreeze AdaptiveHeun S_dot step_half
              get_residuals measure Py.str_float Notebook.dt0 Notebook.tmax
              Notebook.tol Notebook.width globals Notebook.H observables
              pickle_dump 0 tt []) as (_ & Hhead & Hinside).
  split; [exact H1|]. split; [exact (Hhead 0%nat init H0)|].
  destruct (Hinside 0%nat init (at_step 1) H0 H1)
    as (d1 & d2 & Hpts & Hl1 & _ & Hl2 & _ & Hl3).
  unfold first_pass_points.
  rewrite Hpts. cbn [map]. now rewrite Hl1, Hl2, Hl3.
Defined.


(** *** Runs that contradict the claims as worded *)

(** C9 as worded fails inside the loop body: in the first pass of the run,
    after the observable row is appended and before the other two appends,
    the lists have 2, 1 and 0 entries. *)
Lemma series_lengths_fail_inside_the_body :
  body_data_points Q Q Q unit (Data Q) unfreeze S_dot step_half get_residuals
                   measure Notebook.H observables init
  = Some first_pass_points /\
  map lengths first_pass_points = [(2, 1, 0); (2, 2, 0); (2, 2, 1)]%nat /\
  Exists (fun d => ~ lengths_ok Q d) first_pass_points.
Proof.
  split; [vm_compute; reflexivity|]. split; [vm_compute; reflexivity|].
  apply Exists_cons_hd. vm_compute. intros [H21 _]. discriminate H21.
Qed.


(** C4 as worded fails: a loop of four steps writes nothing to disk, and
    the whole cell makes two writes. *)
Lemma loop_makes_no_save :
  notebook_loop Q Q Q unit (Data Q) unfreeze S_dot step_half
                get_residuals measure 10 init = Finished loop_end /\
  steps_taken loop_end = 4%nat /\
  disk loop_end = disk init /\
  List.length (disk cell_end) = 2%nat /\
  ~ saved_once_per_step init loop_end.
Proof.
  split; [vm_compute; reflexivity|]. split; [vm_compute; reflexivity|].
  split; [vm_compute; reflexivity|]. split; [vm_compute; reflexivity|].
  unfold saved_once_per_step. vm_compute. discriminate.
Qed.

(** *** Further runs of the instance *)

(** A stepper that raises once the time has reached 1. *)
Definition step_raising (stp : Q) (w : unit) (t p : Q)
           (H : BranchFreeOperator) (nf : unit -> Cx.Vec -> Q)
  : option (Q * Q * Q * unit) :=
  if Qle_bool 1 t then None else Some (p, 1 # 2, stp, w).

(** The cell with a given stepper and a given [tmax]. *)
Definition cell (stepper_step :
                   Q -> unit -> Q -> Q -> BranchFreeOperator ->
                   (unit -> Cx.Vec -> Q) -> option (Q * Q * Q * unit))
           (tmax : Q) (fuel : nat) : Outcome Q Q Q unit (Data Q) :=
  time_evolution Q Q Q unit (Data Q) unfreeze AdaptiveHeun S_dot
                 stepper_step get_residuals measure Py.str_float
                 Notebook.dt0 tmax Notebook.tol Notebook.width globals
                 Notebook.H observables pickle_dump fuel 0 tt [].

Definition raised_end : St := state_of (cell step_raising Notebook.tmax 10).
Definition idle_end : St := state_of (cell step_half 0 10).

(** A kernel of 8 sites and 60 hidden units, and numpy's answer to a
    column index out of bounds. *)
Definition kernel_wide (p : Q) : Array2 :=
  {| shape0 := 8; shape1 := 60; at2 := fun i j => p |}.
Definition index_error (A : Array2) (k : nat) : option Array1 := None.

Definition file : string := fn Notebook.width.

Lemma no_step_when_tmax_not_positive_witness :
  cell step_half 0 10 = Finished idle_end /\
  List.length (observables_ (data idle_end)) = 1%nat /\
  residuals (data idle_end) = [] /\
  List.length (disk idle_end) = 2%nat.
Proof.
  assert (H0 : 0 <= 0) by apply Qle_refl.
  destruct (no_step_when_tmax_not_positive
              Q Q Q unit (Data Q) unfreeze AdaptiveHeun S_dot step_half
              get_residuals measure Py.str_float Notebook.dt0 0
              Notebook.tol Notebook.width globals Notebook.H observables
              pickle_dump 9 0 tt [] H0)
    as (s & Hrun & _ & _ & Hobs & Hres & Hdisk).
  assert (Hs : s = idle_end).
  { unfold idle_end, cell. now rewrite Hrun. }
  subst s.
  split; [exact Hrun|]. split; [exact Hobs|]. split; [exact Hres|].
  rewrite Hdisk. reflexivity.
Defined.

Lemma raised_run_leaves_only_initial_file_witness :
  cell step_raising Notebook.tmax 10 = Raised raised_end /\
  steps_taken raised_end = 2%nat /\
  List.length (disk raised_end) = 1%nat /\
  option_map (fun d => List.length (observables_ d))
             (load_from_disk (Data Q) (Data Q) pickle_load Py.str_float
                             globals file (disk raised_end))
  = Some 1%nat.
Proof.
  assert (Hrun : cell step_raising Notebook.tmax 10 = Raised raised_end)
    by (vm_compute; reflexivity).
  split; [exact Hrun|]. split; [vm_compute; reflexivity|].
  destruct (raised_run_leaves_only_initial_file
              Q Q Q unit (Data Q) unfreeze AdaptiveHeun S_dot step_raising
              get_residuals measure Py.str_float Notebook.dt0 Notebook.tmax
              Notebook.tol Notebook.width globals Notebook.H observables
              pickle_dump pickle_load 10 0 tt [] raised_end Hrun eq_refl)
    as (Hdisk & Hload & _).
  split.
  - rewrite Hdisk. reflexivity.
  - unfold file. rewrite Hload. reflexivity.
Defined.

Lemma finished_run_file_holds_whole_series_witness :
  cell step_half Notebook.tmax 10 = Finished cell_end /\
  load_from_disk (Data Q) (Data Q) pickle_load Py.str_float globals file
                 (disk cell_end) = Some (data cell_end).
Proof.
  assert (Hrun : cell step_half Notebook.tmax 10 = Finished cell_end)
    by (vm_compute; reflexivity).
  split; [exact Hrun|].
  exact (finished_run_file_holds_whole_series
           Q Q Q unit (Data Q) unfreeze AdaptiveHeun S_dot step_half
           get_residuals measure Py.str_float Notebook.dt0 Notebook.tmax
           Notebook.tol Notebook.width globals Notebook.H observables
           pickle_dump pickle_load 10 0 tt [] cell_end Hrun eq_refl).
Defined.

Lemma plot_observables_after_finished_run_witness :
  (0 < steps_taken cell_end)%nat /\
  option_map (fun curves => (List.length (fst (fst curves)),
                             List.length (fst (snd curves))))
             (plot_observables Q (Data Q) Py.str_float globals pickle_load
                               file (disk cell_end))
  = Some (5%nat, 4%nat).
Proof.
  assert (Hrun : cell step_half Notebook.tmax 10 = Finished cell_end)
    by (vm_compute; reflexivity).
  assert (Hsteps : (0 < steps_taken cell_end)%nat) by (vm_compute; lia).
  split; [exact Hsteps|].
  destruct (plot_observables_after_finished_run
              Q Q Q unit (Data Q) unfreeze AdaptiveHeun S_dot step_half
              get_residuals measure Py.str_float Notebook.dt0 Notebook.tmax
              Notebook.tol Notebook.width globals Notebook.H observables
              pickle_dump pickle_load 10 0 tt [] cell_end Hrun eq_refl Hsteps)
    as [Hplot _].
  unfold file. rewrite Hplot. reflexivity.
Defined.

Lemma plot_observables_fails_without_residual_rows_witness :
  cell step_raising Notebook.tmax 10 = Raised raised_end /\
  plot_observables Q (Data Q) Py.str_float globals pickle_load file
                   (disk raised_end) = None.
Proof.
  assert (Hrun : cell step_raising Notebook.tmax 10 = Raised raised_end)
    by (vm_compute; reflexivity).
  split; [exact Hrun|].
  exact (plot_observables_fails_without_residual_rows
           Q Q Q unit (Data Q) unfreeze AdaptiveHeun S_dot step_raising
           get_residuals measure Py.str_float Notebook.dt0 Notebook.tmax
           Notebook.tol Notebook.width globals Notebook.H observables
           pickle_dump pickle_load 10 0 tt [] raised_end eq_refl
           (or_introl Hrun)).
Defined.

Lemma plot_parameters_shows_five_hidden_units_witness :
  exists imgs,
    plot_parameters Q (Data Q) Py.str_float globals pickle_load kernel_wide
                    index_error file (disk cell_end) = Some imgs /\
    List.length imgs = 5%nat /\
    exists img, nth_error imgs 4 = Some img /\
                shape0 img = 8%nat /\ shape1 img = 1%nat.
Proof.
  destruct (plot_parameters_shows_five_hidden_units
              Q (Data Q) Py.str_float globals pickle_load kernel_wide
              index_error 8 file (disk cell_end) (data cell_end) 0)
    as (imgs & Hplot & Hlen & Hpanels).
  - vm_compute. reflexivity.
  - vm_compute. discriminate.
  - intros p _. split; [simpl; lia | reflexivity].
  - exists imgs. split; [exact Hplot|]. split; [exact Hlen|].
    destruct (Hpanels 4%nat) as (img & Hnth & Hs0 & Hs1 & _); [lia|].
    exists img. split; [exact Hnth|]. split; [exact Hs0|].
    rewrite Hs1. vm_compute. reflexivity.
Defined.

Lemma load_after_changing_L_misses_the_save_witness :
  load_from_disk nat nat Some Py.str_float
    (mkGlobals 4 Notebook.g Notebook.h) "run_"
    (save_to_disk nat nat (fun x => x) Py.str_float globals 42%nat
                  "run_" [])
  = None.
Proof.
  rewrite (load_after_changing_L_misses_the_save
             nat nat (fun x => x) Some Py.str_float globals
             (mkGlobals 4 Notebook.g Notebook.h) 42%nat "run_" []).
  - reflexivity.
  - simpl. discriminate.
  - reflexivity.
  - reflexivity.
Defined.

End Toy.

(** ** The norm function *)

Section NormFacts.



Lemma norm2_nonneg (v : Cx.Vec) : 0 <= Cx.norm2 v.
Proof.
  induction v as [|a v IH]; simpl; [apply Qle_refl|].
  pose proof (square_nonneg (Cx.re a)). pose proof (square_nonneg (Cx.im a)).
  lra.
Qed.

Lemma squares_zero (a b : Q) : a * a + b * b == 0 -> a == 0 /\ b == 0.
Proof.
  intro Hsum.
  pose proof (square_nonneg a) as Ha. pose proof (square_nonneg b) as Hb.
  assert (Ha0 : a * a == 0) by lra. assert (Hb0 : b * b == 0) by lra.
  split.
  - destruct (Qmult_integral _ _ Ha0); assumption.
  - destruct (Qmult_integral _ _ Hb0); assumption.
Qed.

Lemma norm2_zero_iff (v : Cx.Vec) :
  Cx.norm2 v == 0 <-> Forall (fun z => Cx.eq z Cx.zero) v.
Proof.
  induction v as [|a v IH]; simpl.
  - split; [constructor | reflexivity].
  - pose proof (norm2_nonneg v) as Hv.
    pose proof (square_nonneg (Cx.re a)) as Hr.
    pose proof (square_nonneg (Cx.im a)) as Hi.
    split.
    + intro Hsum. constructor.
      * apply squares_zero. lra.
      * apply IH. lra.
    + intro Hall. inversion Hall as [|? ? [Hre Him] Hrest]; subst.
      apply IH in Hrest. simpl in Hre, Him. rewrite Hre, Him, Hrest. ring.
Qed.

(** X18. In exact arithmetic, [norm_fun] with its default [df] is a
    definite form: it is never negative, and it is zero exactly on the
    arrays whose entries are all zero.  On floats the squares are rounded
    and the square of a small entry can underflow to zero, so the second
    part is a statement about the exact sum only. *)
Theorem default_norm_is_definite (v : Cx.Vec) :
  0 <= norm_fun v df_default /\
  (norm_fun v df_default == 0 <-> Forall (fun z => Cx.eq z Cx.zero) v).
Proof.
  rewrite norm_fun_default. split.
  - apply norm2_nonneg.
  - apply norm2_zero_iff.
Qed.






End NormFacts.


(** ** The loop in floating point

    The driver above adds times as exact rationals and lets only the
    stepper raise.  Here [t] and [dt] are floats, the sum [t += dt] and the
    difference [t-dt] are rounded, with infinities and NaN, and every call
    of the loop body into jVMC can raise. *)

Module Rounded.

Section Loop.

Import Op.

Variables Params Snapshot Stepper World Val Obs Norm : Type.
Variable unfreeze : Params -> Snapshot.

(** [+] and [-] on floats, as [t += dt] and [t-dt] use them. *)
Variables fadd fsub : Py.float -> Py.float -> Py.float.

(** [partial(norm_fun, df=tdvpEquation.S_dot)]: the loop hands it to the
    stepper and does not call it. *)
Variable normFunction : Norm.

(** [stepper.step(...)]: the new parameters and the accepted step size, or
    [None] when it raises; the stepper and the jVMC state as the call
    leaves them, either way. *)
Variable stepper_step :
  Stepper -> World -> Py.float -> Params -> BranchFreeOperator -> Norm ->
  option (Params * Py.float) * Stepper * World.

(** [tdvpEquation.get_residuals()]; [None] when it raises. *)
Variable get_residuals : World -> option (Val * Val).

(** [measure(observables, psi, sampler)]; [None] when it raises. *)
Variable measure :
  list (string * BranchFreeOperator) -> Params -> World ->
  option Obs * World.

(** [obs[key]["mean"][0]]; [None] when a lookup raises. *)
Variable mean0 : Obs -> string -> option Val.

(** The five [print] calls that end the body; [false] when one of them
    raises, as [%f] does on an array that is not a scalar.  The two clock
    readings and [clear_output] change no variable of the loop and are
    taken to return. *)
Variable print_info : Py.float -> Py.float -> Val -> Val -> Obs -> bool.

(** [jVMC.util.stepper.AdaptiveHeun(timeStep=dt, tol=tol)] *)
Variable AdaptiveHeun : Py.float -> Py.float -> Stepper.

(** [tmax] is a finite float. *)
Variable tmax : Q.
Variables dt0 tol : Py.float.
Variable H : BranchFreeOperator.
Variable observables : list (string * BranchFreeOperator).

Record Data : Type := mkData {
  parameters : list Snapshot;
  observables_ : list (Py.float * Val * Val);
  residuals : list (Py.float * Val * Val)
}.

(** The variables the loop reads and writes. *)
Record State : Type := mkState {
  t : Py.float;
  dt : Py.float;
  psi : Params;
  stepper : Stepper;
  world : World;
  data : Data
}.

(** The variables at the first loop test, when the statements before the
    loop return normally; the file they write is not a variable of the
    loop. *)
Definition initial (psi0 : Params) (w0 : World) : option State :=
  let t0 := Py.Fin 0 in
  let stepper0 := AdaptiveHeun dt0 tol in
  match measure observables psi0 w0 with
  | (None, _) => None
  | (Some obs, w1) =>
      match mean0 obs "energy", mean0 obs "X" with
      | Some e, Some x =>
          Some {| t := t0; dt := dt0; psi := psi0; stepper := stepper0;
                  world := w1;
                  data := {| parameters := [unfreeze psi0];
                             observables_ := [(t0, e, x)];
                             residuals := [] |} |}
      | _, _ => None
      end
  end.

(** One pass through the body: it reaches its end, or a call raises and
    leaves the variables as the statements before it set them. *)
Inductive pass : Type :=
| Completed (st : State)
| Threw (st : State).

Definition loop_body (st : State) : pass :=
  match stepper_step (stepper st) (world st) (t st) (psi st) H normFunction
  with
  | (None, stp', w1) =>
      Threw {| t := t st; dt := dt st; psi := psi st; stepper := stp';
               world := w1; data := data st |}
  | (Some (dp, dt'), stp', w1) =>
      let psi' := dp in
      let t' := fadd (t st) dt' in
      match get_residuals w1 with
      | None =>
          Threw {| t := t'; dt := dt'; psi := psi'; stepper := stp';
                   world := w1; data := data st |}
      | Some (tdvpErr, linEqRes) =>
          match measure observables psi' w1 with
          | (None, w2) =>
              Threw {| t := t'; dt := dt'; psi := psi'; stepper := stp';
                       world := w2; data := data st |}
          | (Some obs, w2) =>
              match mean0 obs "energy", mean0 obs "X" with
              | Some e, Some x =>
                  let data' :=
                    {| parameters := parameters (data st) ++ [unfreeze psi'];
                       observables_ := observables_ (data st) ++ [(t', e, x)];
                       residuals :=
                         residuals (data st) ++
                         [(fsub t' dt', tdvpErr, linEqRes)] |} in
                  let st' :=
                    {| t := t'; dt := dt'; psi := psi'; stepper := stp';
                       world := w2; data := data' |} in
                  if print_info t' dt' tdvpErr linEqRes obs
                  then Completed st' else Threw st'
              | _, _ =>
                  Threw {| t := t'; dt := dt'; psi := psi'; stepper := stp';
                           world := w2; data := data st |}
              end
          end
      end
  end.

Inductive step_result : Type :=
| Next (st : State)      (* the body ran; back to the loop test *)
| Exit                   (* the loop test failed *)
| Fault (st : State).    (* a call in the body raised *)

(** [while t < tmax:] *)
Definition loop_step (st : State) : step_result :=
  if Py.float_ltb (t st) (Py.Fin tmax) then
    match loop_body st with
    | Completed st' => Next st'
    | Threw st' => Fault st'
    end
  else Exit.

Inductive Outcome : Type :=
| Finished (st : State)
| Raised (st : State)
| OutOfFuel (st : State).

(** The [while] loop, bounded by [fuel] loop tests. *)
Fixpoint run_loop (fuel : nat) (st : State) : Outcome :=
  match fuel with
  | O => OutOfFuel st
  | S fuel' =>
      match loop_step st with
      | Next st' => run_loop fuel' st'
      | Exit => Finished st
      | Fault st' => Raised st'
      end
  end.

(** The state after [n] complete passes, when the loop makes that many. *)
Fixpoint after (n : nat) (st : State) : option State :=
  match n with
  | O => Some st
  | S n' =>
      match loop_step st with
      | Next st' => after n' st'
      | _ => None
      end
  end.

(** A pass that took [t] from [a] to [b] moved it forward by [delta] or
    more, or past every finite time. *)
Definition advances_by (delta : Q) (a b : Py.float) : Prop :=
  match b with
  | Py.NaN | Py.PInf => True
  | Py.NInf => False
  | Py.Fin y =>
      match a with
      | Py.Fin x => x + delta <= y
      | _ => False
      end
  end.

(** Loop tests that suffice from time [a] when every pass advances by
    [delta]. *)
Definition tests_needed (delta : Q) (a : Py.float) : nat :=
  match a with
  | Py.Fin x => S (Z.to_nat (Qceiling ((tmax - x) / delta)))
  | Py.NInf => 2
  | _ => 1
  end.

(** *** Facts about the loop test and about runs *)

Lemma float_ltb_false (a : Py.float) :
  Py.float_ltb a (Py.Fin tmax) = false <->
  a = Py.NaN \/ Py.float_leb (Py.Fin tmax) a = true.
Proof.
  destruct a as [x| | |]; simpl.
  - rewrite negb_false_iff. split.
    + intro Hle. now right.
    + intros [Hnan|Hle]; [discriminate|exact Hle].
  - split; [now right|reflexivity].
  - split; [discriminate|]. intros [Hnan|Hle]; discriminate.
  - split; [now left|reflexivity].
Qed.

Lemma float_loop_step_Exit (st : State) :
  loop_step st = Exit <-> Py.float_ltb (t st) (Py.Fin tmax) = false.
Proof.
  unfold loop_step.
  destruct (Py.float_ltb (t st) (Py.Fin tmax)).
  - destruct (loop_body st); split; discriminate.
  - split; reflexivity.
Qed.

Lemma float_loop_step_Next (st st' : State) :
  loop_step st = Next st' <->
  Py.float_ltb (t st) (Py.Fin tmax) = true /\ loop_body st = Completed st'.
Proof.
  unfold loop_step.
  destruct (Py.float_ltb (t st) (Py.Fin tmax)).
  - destruct (loop_body st) as [s|s]; split.
    + intro Heq. injection Heq as <-. now split.
    + intros [_ Heq]. now injection Heq as <-.
    + discriminate.
    + intros [_ Heq]. discriminate.
  - split; [discriminate|]. intros [Heq _]. discriminate.
Qed.

Lemma float_loop_step_Fault (st st' : State) :
  loop_step st = Fault st' <->
  Py.float_ltb (t st) (Py.Fin tmax) = true /\ loop_body st = Threw st'.
Proof.
  unfold loop_step.
  destruct (Py.float_ltb (t st) (Py.Fin tmax)).
  - destruct (loop_body st) as [s|s]; split.
    + discriminate.
    + intros [_ Heq]. discriminate.
    + intro Heq. injection Heq as <-. now split.
    + intros [_ Heq]. now injection Heq as <-.
  - split; [discriminate|]. intros [Heq _]. discriminate.
Qed.

(** A completed pass sets [t] to the rounded sum of the old [t] and the
    step size it stores in [dt]. *)
Lemma loop_body_time (st st' : State) :
  loop_body st = Completed st' -> t st' = fadd (t st) (dt st').
Proof.
  unfold loop_body.
  destruct (stepper_step (stepper st) (world st) (t st) (psi st) H
                         normFunction) as [[[[dp dt']|] stp'] w1];
    [|discriminate].
  destruct (get_residuals w1) as [[tdvpErr linEqRes]|]; [|discriminate].
  destruct (measure observables dp w1) as [[obs|] w2]; [|discriminate].
  destruct (mean0 obs "energy") as [e|]; [|discriminate].
  destruct (mean0 obs "X") as [x|]; [|discriminate].
  destruct (print_info _ _ _ _ _); [|discriminate].
  intro Heq. injection Heq as <-. reflexivity.
Qed.

Lemma float_after_S_intro (n : nat) (st s1 sk : State) :
  loop_step st = Next s1 -> after n s1 = Some sk -> after (S n) st = Some sk.
Proof. intros Hstep Hafter. simpl. now rewrite Hstep. Qed.

Lemma float_run_loop_more_fuel (n m : nat) (st : State) :
  (n <= m)%nat ->
  (forall s, run_loop n st <> OutOfFuel s) ->
  run_loop m st = run_loop n st.
Proof.
  revert m st. induction n as [|n IH]; intros m st Hle Hstop.
  - exfalso. now apply (Hstop st).
  - destruct m as [|m]; [lia|]. simpl in *.
    destruct (loop_step st); [|reflexivity|reflexivity].
    apply IH; [lia|exact Hstop].
Qed.

Lemma float_run_loop_Finished (fuel : nat) (st s : State) :
  run_loop fuel st = Finished s ->
  Py.float_ltb (t s) (Py.Fin tmax) = false.
Proof.
  revert st. induction fuel as [|fuel IH]; intro st; simpl.
  - discriminate.
  - destruct (loop_step st) eqn:E.
    + apply IH.
    + intro Heq. injection Heq as <-. now apply float_loop_step_Exit.
    + discriminate.
Qed.

Lemma float_run_loop_Raised (fuel : nat) (st s : State) :
  run_loop fuel st = Raised s ->
  exists k sk,
    after k st = Some sk /\
    Py.float_ltb (t sk) (Py.Fin tmax) = true /\
    loop_body sk = Threw s.
Proof.
  revert st. induction fuel as [|fuel IH]; intro st; simpl.
  - discriminate.
  - destruct (loop_step st) as [s1| |s1] eqn:E.
    + intro Hrun. destruct (IH s1 Hrun) as (k & sk & Hk & Hlt & Hb).
      exists (S k), sk. split; [|now split].
      now apply (float_after_S_intro k st s1).
    + discriminate.
    + intro Heq. injection Heq as <-.
      apply float_loop_step_Fault in E as [Hlt Hb].
      exists 0%nat, st. now split.
Qed.

Lemma ceiling_covers (delta x : Q) :
  0 < delta ->
  x <= inject_Z (Z.of_nat (Z.to_nat (Qceiling (x / delta)))) * delta.
Proof.
  intro Hdelta.
  assert (Hne : ~ delta == 0) by lra.
  assert (Hx : x == x / delta * delta)
    by (field; exact Hne).
  rewrite Hx at 1. apply Qmult_le_compat_r; [|lra].
  eapply Qle_trans; [apply Qle_ceiling|].
  rewrite <- Zle_Qle. lia.
Qed.

(** What is left to cover from time [a] fits in [n] passes of [delta]. *)
Definition within (delta : Q) (n : nat) (a : Py.float) : Prop :=
  match a with
  | Py.Fin x => tmax - x <= inject_Z (Z.of_nat n) * delta
  | Py.NInf => (1 <= n)%nat
  | _ => True
  end.

Lemma float_run_loop_stops (delta : Q) :
  0 < delta ->
  forall (n : nat) (st : State),
    (forall k sk sk',
        after k st = Some sk -> loop_step sk = Next sk' ->
        advances_by delta (t sk) (t sk')) ->
    within delta n (t st) ->
    exists s, run_loop (S n) st = Finished s \/
              run_loop (S n) st = Raised s.
Proof.
  intros Hdelta. induction n as [|n IH]; intros st Hadv Hrem.
  - exists st. left. simpl.
    assert (Hexit : loop_step st = Exit).
    { apply float_loop_step_Exit. unfold within in Hrem.
      destruct (t st) as [x| | |]; simpl; try reflexivity.
      - change (inject_Z (Z.of_nat 0)) with 0 in Hrem.
        rewrite negb_false_iff. apply Qle_bool_iff. lra.
      - lia. }
    now rewrite Hexit.
  - change (run_loop (S (S n)) st) with
      (match loop_step st with
       | Next st' => run_loop (S n) st'
       | Exit => Finished st
       | Fault st' => Raised st'
       end).
    destruct (loop_step st) as [s1| |s1] eqn:E.
    + apply IH.
      * intros k sk sk' Hk. apply (Hadv (S k)).
        now apply (float_after_S_intro k st s1).
      * specialize (Hadv 0%nat st s1 eq_refl E).
        unfold advances_by in Hadv. unfold within in *.
        destruct (t s1) as [y| | |]; try exact I; try contradiction.
        destruct (t st) as [x| | |]; try contradiction.
        rewrite Nat2Z.inj_succ in Hrem. unfold Z.succ in Hrem.
        rewrite inject_Z_plus in Hrem.
        change (inject_Z 1) with 1 in Hrem. lra.
    + exists st. now left.
    + exists s1. now right.
Qed.

Lemma tests_needed_within (delta : Q) (a : Py.float) :
  0 < delta -> within delta (pred (tests_needed delta a)) a.
Proof.
  intro Hdelta. destruct a as [x| | |]; simpl; try exact I.
  - now apply ceiling_covers.
  - lia.
Qed.

(** C3, amended. The driver loop runs its body exactly while [t < tmax]. It
    is left only at a loop test where [t < tmax] is false, that is with
    [t >= tmax] or with [t] NaN, or because a call in the body raised at a
    time below [tmax].  It terminates after finitely many passes provided
    every completed pass advances [t] by at least some [delta > 0]: from
    time [t], [ceil((tmax - t) / delta) + 1] loop tests suffice.  [tmax > 0]
    and [dt0 > 0] alone do not give termination. *)
Theorem loop_exit_and_termination_when_time_advances
        (delta : Q) (st : State) :
  0 < delta ->
  (forall k sk sk',
      after k st = Some sk -> loop_step sk = Next sk' ->
      advances_by delta (t sk) (t sk')) ->
  (forall s, loop_step s = Exit <->
             Py.float_ltb (t s) (Py.Fin tmax) = false) /\
  (forall s, loop_step s = Exit <->
             t s = Py.NaN \/ Py.float_leb (Py.Fin tmax) (t s) = true) /\
  (forall fuel s,
     run_loop fuel st = Finished s ->
     t s = Py.NaN \/ Py.float_leb (Py.Fin tmax) (t s) = true) /\
  (forall fuel s,
     run_loop fuel st = Raised s ->
     exists k sk,
       after k st = Some sk /\
       Py.float_ltb (t sk) (Py.Fin tmax) = true /\
       loop_body sk = Threw s) /\
  (forall fuel,
     (tests_needed delta (t st) <= fuel)%nat ->
     exists s, run_loop fuel st = Finished s \/ run_loop fuel st = Raised s).
Proof.
  intros Hdelta Hadv. split; [|split; [|split; [|split]]].
  - exact float_loop_step_Exit.
  - intro s. rewrite float_loop_step_Exit. apply float_ltb_false.
  - intros fuel s Hrun. apply float_ltb_false.
    now apply (float_run_loop_Finished fuel st).
  - intros fuel s. apply float_run_loop_Raised.
  - intros fuel Hfuel.
    assert (Hpos : tests_needed delta (t st) =
                   S (pred (tests_needed delta (t st))))
      by (destruct (t st); reflexivity).
    destruct (float_run_loop_stops delta Hdelta (pred (tests_needed delta (t st)))
                             st Hadv (tests_needed_within delta (t st) Hdelta))
      as [s Hs].
    rewrite <- Hpos in Hs.
    exists s.
    rewrite (float_run_loop_more_fuel (tests_needed delta (t st)) fuel st Hfuel).
    + exact Hs.
    + intros s' Hs'. destruct Hs as [Hs|Hs]; congruence.
Qed.

(** X3. A loop that ends normally after at least one pass ends at the first
    loop test where [t < tmax] is false: the pass before it started at a
    time below [tmax] and set [t] to the rounded sum of that time and the
    last accepted step, so the final time is in general not [tmax]
    itself. *)
Theorem finished_run_ends_one_step_past_a_time_below_tmax
        (fuel : nat) (st s : State) :
  run_loop fuel st = Finished s ->
  Py.float_ltb (t s) (Py.Fin tmax) = false /\
  (s = st \/
   exists k prev,
     after k st = Some prev /\
     Py.float_ltb (t prev) (Py.Fin tmax) = true /\
     loop_body prev = Completed s /\
     t s = fadd (t prev) (dt s)).
Proof.
  intro Hrun. split; [now apply (float_run_loop_Finished fuel st)|].
  revert st Hrun. induction fuel as [|fuel IH]; intros st; simpl.
  - discriminate.
  - destruct (loop_step st) as [s1| |s1] eqn:E.
    + intro Hrun. destruct (IH s1 Hrun) as [->|(k & prev & Hk & Hlt & Hb & Ht)].
      * right. apply float_loop_step_Next in E as [Hlt Hb].
        exists 0%nat, st. repeat split; try assumption.
        now apply loop_body_time.
      * right. exists (S k), prev. repeat split; try assumption.
        now apply (float_after_S_intro k st s1).
    + intro Heq. injection Heq as <-. now left.
    + discriminate.
Qed.

End Loop.

Arguments t {Params Snapshot Stepper World Val} s.
Arguments dt {Params Snapshot Stepper World Val} s.
Arguments psi {Params Snapshot Stepper World Val} s.
Arguments stepper {Params Snapshot Stepper World Val} s.
Arguments world {Params Snapshot Stepper World Val} s.
Arguments data {Params Snapshot Stepper World Val} s.
Arguments Finished {Params Snapshot Stepper World Val} st.
Arguments Raised {Params Snapshot Stepper World Val} st.
Arguments OutOfFuel {Params Snapshot Stepper World Val} st.
Arguments Next {Params Snapshot Stepper World Val} st.
Arguments Exit {Params Snapshot Stepper World Val}.
Arguments Fault {Params Snapshot Stepper World Val} st.
Arguments Completed {Params Snapshot Stepper World Val} st.
Arguments Threw {Params Snapshot Stepper World Val} st.

(** *** Runs in binary64 arithmetic

    One rational parameter, a stepper that carries the step size of its
    next call, and measurements that are always zero; [+] and [-] are the
    IEEE operations of [Py]. *)

Definition St : Type := State Q Q Py.float unit Q.

Definition unfreeze (p : Q) : Q := p.

Definition AdaptiveHeun (timeStep tol : Py.float) : Py.float := timeStep.

Definition get_residuals (w : unit) : option (Q * Q) := Some (0, 0).

Definition measure (obs : list (string * Op.BranchFreeOperator)) (p : Q)
           (w : unit) : option unit * unit := (Some tt, w).

(** A [measure] that raises. *)
Definition measure_raising (obs : list (string * Op.BranchFreeOperator))
           (p : Q) (w : unit) : option unit * unit := (None, w).

Definition mean0 (obs : unit) (key : string) : option Q := Some 0.

Definition print_info (t dt : Py.float) (tdvpErr linEqRes : Q) (obs : unit)
  : bool := true.

(** A stepper that accepts the step size it carries, every time. *)
Definition step_constant (stp : Py.float) (w : unit) (t : Py.float) (p : Q)
           (H : Op.BranchFreeOperator) (nf : unit)
  : option (Q * Py.float) * Py.float * unit :=
  (Some (p, stp), stp, w).

(** The float [1e-20]. *)
Definition tiny : Py.float := Py.of_Q (1 # 100000000000000000000).

(** A stepper that accepts the step size it carries and carries [1e-20]
    from then on. *)
Definition step_collapsing (stp : Py.float) (w : unit) (t : Py.float)
           (p : Q) (H : Op.BranchFreeOperator) (nf : unit)
  : option (Q * Py.float) * Py.float * unit :=
  (Some (p, stp), tiny, w).

(** A stepper whose step size is NaN, as after a division of zero by zero
    in its step-size update; it does not raise. *)
Definition step_nan (stp : Py.float) (w : unit) (t : Py.float) (p : Q)
           (H : Op.BranchFreeOperator) (nf : unit)
  : option (Q * Py.float) * Py.float * unit :=
  (Some (p, Py.NaN), stp, w).

(** The state at the first loop test for [dt = dt0], [tol = 1e-4]. *)
Definition start (dt0 : Q) : St :=
  {| t := Py.Fin 0; dt := Py.of_Q dt0; psi := 0;
     stepper := Py.of_Q dt0; world := tt;
     data := {| parameters := [0]; observables_ := [(Py.Fin 0, 0, 0)];
                residuals := [] |} |}.

(** The loop with [tmax = 2.0], for a stepper and a [measure]. *)
Definition loop
           (step : Py.float -> unit -> Py.float -> Q ->
                   Op.BranchFreeOperator -> unit ->
                   option (Q * Py.float) * Py.float * unit)
           (meas : list (string * Op.BranchFreeOperator) -> Q -> unit ->
                   option unit * unit)
           (fuel : nat) (st : St) : Outcome Q Q Py.float unit Q :=
  run_loop Q Q Py.float unit Q unit unit unfreeze Py.float_add Py.float_sub
           tt step get_residuals meas mean0 print_info 2 Notebook.H []
           fuel st.

Lemma start_is_initial (dt0 : Q) :
  initial Q Q Py.float unit Q unit unfreeze measure mean0 AdaptiveHeun
          (Py.of_Q dt0) (Py.of_Q (1 # 10000)) [] 0 tt = Some (start dt0).
Proof. reflexivity. Qed.

(** Where steps of [0.2] end: after eleven passes, at
    [2.1999999999999997]. *)
Definition constant_end : St :=
  Eval vm_compute in
    match loop step_constant measure 12 (start (2 # 10)) with
    | Finished s => s
    | Raised s => s
    | OutOfFuel s => s
    end.

Lemma loop_exit_and_termination_when_time_advances_witness :
  0 < 19 # 100 /\
  (tests_needed 2 (19 # 100) (t (start (2 # 10))) <= 12)%nat /\
  exists s,
    loop step_constant measure 12 (start (2 # 10)) = Finished s \/
    loop step_constant measure 12 (start (2 # 10)) = Raised s.
Proof.
  assert (Hd : 0 < 19 # 100) by reflexivity.
  assert (Hfuel : (tests_needed 2 (19 # 100) (t (start (2 # 10))) <= 12)%nat)
    by (vm_compute; lia).
  split; [exact Hd|]. split; [exact Hfuel|].
  assert (Hadv : forall (k : nat) (sk sk' : St),
             after Q Q Py.float unit Q unit unit unfreeze Py.float_add
                   Py.float_sub tt step_constant get_residuals measure
                   mean0 print_info 2 Notebook.H [] k (start (2 # 10))
             = Some sk ->
             loop_step Q Q Py.float unit Q unit unit unfreeze Py.float_add
                       Py.float_sub tt step_constant get_residuals measure
                       mean0 print_info 2 Notebook.H [] sk
             = Next sk' ->
             advances_by (19 # 100) (t sk) (t sk')).
  { intros k sk sk' Hk Hstep.
    do 12 (destruct k as [|k];
           [vm_compute in Hk; injection Hk as <-;
            vm_compute in Hstep;
            first [discriminate Hstep
                  | injection Hstep as <-; vm_compute; discriminate]|]).
    vm_compute in Hk. discriminate Hk. }
  destruct (loop_exit_and_termination_when_time_advances
              Q Q Py.float unit Q unit unit unfreeze Py.float_add
              Py.float_sub tt step_constant get_residuals measure mean0
              print_info 2 Notebook.H [] (19 # 100) (start (2 # 10))
              Hd Hadv) as (_ & _ & _ & _ & Hterm).
  exact (Hterm 12%nat Hfuel).
Defined.

Lemma finished_run_ends_one_step_past_a_time_below_tmax_witness :
  run_loop Q Q Py.float unit Q unit unit unfreeze Py.float_add Py.float_sub
           tt step_constant get_residuals measure mean0 print_info 2
           Notebook.H [] 12 (start (2 # 10)) = Finished constant_end /\
  t constant_end = Py.Fin (4953959590107545 # 2251799813685248) /\
  Py.float_ltb (t constant_end) (Py.Fin 2) = false /\
  (constant_end = start (2 # 10) \/
   exists k prev,
     after Q Q Py.float unit Q unit unit unfreeze Py.float_add Py.float_sub
           tt step_constant get_residuals measure mean0 print_info 2
           Notebook.H [] k (start (2 # 10)) = Some prev /\
     Py.float_ltb (t prev) (Py.Fin 2) = true /\
     loop_body Q Q Py.float unit Q unit unit unfreeze Py.float_add
               Py.float_sub tt step_constant get_residuals measure mean0
               print_info Notebook.H [] prev = Completed constant_end /\
     t constant_end = Py.float_add (t prev) (dt constant_end)).
Proof.
  assert (Hrun : run_loop Q Q Py.float unit Q unit unit unfreeze
                          Py.float_add Py.float_sub tt step_constant
                          get_residuals measure mean0 print_info 2
                          Notebook.H [] 12 (start (2 # 10))
                 = Finished constant_end) by (vm_compute; reflexivity).
  split; [exact Hrun|]. split; [reflexivity|].
  exact (finished_run_ends_one_step_past_a_time_below_tmax
           Q Q Py.float unit Q unit unit unfreeze Py.float_add Py.float_sub
           tt step_constant get_residuals measure mean0 print_info 2
           Notebook.H [] 12 (start (2 # 10)) constant_end Hrun).
Defined.

(** Once the collapsing stepper carries [1e-20] and [t] is [1e-3], a pass
    leaves both as they are: the sum rounds back to [1e-3]. *)
Definition stuck (st : St) : Prop :=
  t st = Py.of_Q (1 # 1000) /\ stepper st = tiny.

Lemma stuck_step (st : St) :
  stuck st ->
  exists st',
    loop_step Q Q Py.float unit Q unit unit unfreeze Py.float_add
              Py.float_sub tt step_collapsing get_residuals measure mean0
              print_info 2 Notebook.H [] st = Next st' /\
    stuck st'.
Proof.
  intros [Ht Hs]. destruct st as [t0 dt0 p stp w d]. simpl in Ht, Hs.
  subst t0 stp. eexists. split.
  - unfold loop_step, loop_body, step_collapsing, get_residuals, measure,
      mean0, print_info. cbn [t stepper world psi data].
    change (Py.float_ltb (Py.of_Q (1 # 1000)) (Py.Fin 2)) with true.
    cbv iota. reflexivity.
  - split; [|reflexivity]. cbn [t]. vm_compute. reflexivity.
Qed.

Lemma stuck_runs_out (fuel : nat) (st : St) :
  stuck st -> exists s, loop step_collapsing measure fuel st = OutOfFuel s.
Proof.
  revert st. induction fuel as [|fuel IH]; intros st Hst.
  - exists st. reflexivity.
  - destruct (stuck_step st Hst) as (st' & Hstep & Hst').
    destruct (IH st' Hst') as [s Hs]. exists s.
    unfold loop in *. cbn [run_loop]. now rewrite Hstep.
Qed.

(** C3 as worded fails in three ways, each with [tmax = 2.0 > 0] and
    [dt0 = 1e-3 > 0].  A stepper whose step size collapses to [1e-20] keeps
    the loop running for ever without raising, because [1e-3 + 1e-20] is
    [1e-3] in floats.  A step size that is NaN ends the loop at a test where
    [t >= tmax] is false.  An exception that [measure] raises ends the loop
    although the stepper returned normally. *)
Lemma loop_can_run_for_ever_or_leave_below_tmax :
  0 < 2 /\ 0 < 1 # 1000 /\
  (forall fuel,
     exists s, loop step_collapsing measure fuel (start (1 # 1000))
               = OutOfFuel s) /\
  (exists s,
     loop step_nan measure 2 (start (1 # 1000)) = Finished s /\
     t s = Py.NaN /\
     Py.float_leb (Py.Fin 2) (t s) = false) /\
  (exists s,
     loop step_constant measure_raising 1 (start (1 # 1000)) = Raised s /\
     Py.float_ltb (t s) (Py.Fin 2) = true /\
     fst (fst (step_constant (stepper (start (1 # 1000))) tt
                             (t (start (1 # 1000))) 0 Notebook.H tt))
     = Some (0, Py.of_Q (1 # 1000))).
Proof.
  split; [reflexivity|]. split; [reflexivity|]. split; [|split].
  - intros [|fuel].
    + exists (start (1 # 1000)). reflexivity.
    + assert (Hfirst : exists s1,
                 loop_step Q Q Py.float unit Q unit unit unfreeze
                           Py.float_add Py.float_sub tt step_collapsing
                           get_residuals measure mean0 print_info 2
                           Notebook.H [] (start (1 # 1000)) = Next s1 /\
                 stuck s1).
      { eexists. split; [vm_compute; reflexivity|].
        split; vm_compute; reflexivity. }
      destruct Hfirst as (s1 & Hstep & Hs1).
      destruct (stuck_runs_out fuel s1 Hs1) as [s Hs]. exists s.
      unfold loop in *. cbn [run_loop]. now rewrite Hstep.
  - eexists. split; [vm_compute; reflexivity|]. split; reflexivity.
  - eexists. split; [vm_compute; reflexivity|].
    split; vm_compute; reflexivity.
Qed.

End Rounded.


(** *** The exact driver as an instance

    With unrounded sums and calls that return normally, apart from the
    stepper's, the loop above is the loop of the driver section. *)

Section ExactLoop.

Variables Params Snapshot Stepper World Bytes : Type.
Variable unfreeze : Params -> Snapshot.
Variable S_dot : World -> Cx.Vec -> Cx.Vec.
Variable stepper_step :
  Stepper -> World -> Q -> Params -> Op.BranchFreeOperator ->
  (World -> Cx.Vec -> Q) -> option (Params * Q * Stepper * World).
Variable get_residuals : World -> Q * Q.
Variable measure :
  list (string * Op.BranchFreeOperator) -> Params -> World ->
  (string -> Q) * World.
Variable tmax : Q.
Variable H : Op.BranchFreeOperator.
Variable observables : list (string * Op.BranchFreeOperator).

Definition exact_add (a b : Py.float) : Py.float :=
  match a, b with
  | Py.Fin x, Py.Fin y => Py.Fin (x + y)
  | _, _ => Py.NaN
  end.

Definition exact_sub (a b : Py.float) : Py.float :=
  match a, b with
  | Py.Fin x, Py.Fin y => Py.Fin (x - y)
  | _, _ => Py.NaN
  end.

Definition exact_step (stp : Stepper) (w : World) (a : Py.float)
           (p : Params) (O : Op.BranchFreeOperator)
           (nf : World -> Cx.Vec -> Q)
  : option (Params * Py.float) * Stepper * World :=
  match a with
  | Py.Fin x =>
      match stepper_step stp w x p O nf with
      | Some (dp, d, stp', w') => (Some (dp, Py.Fin d), stp', w')
      | None => (None, stp, w)
      end
  | _ => (None, stp, w)
  end.

Definition exact_measure (obs : list (string * Op.BranchFreeOperator))
           (p : Params) (w : World) : option (string -> Q) * World :=
  let (o, w') := measure obs p w in (Some o, w').

Definition to_rows (rows : list (Q * Q * Q)) : list (Py.float * Q * Q) :=
  map (fun r => (Py.Fin (fst (fst r)), snd (fst r), snd r)) rows.

Definition to_rounded (st : State Params Snapshot Stepper World Bytes)
  : Rounded.State Params Snapshot Stepper World Q :=
  {| Rounded.t := Py.Fin (t st);
     Rounded.dt := Py.Fin (dt st);
     Rounded.psi := psi st;
     Rounded.stepper := stepper st;
     Rounded.world := world st;
     Rounded.data :=
       {| Rounded.parameters := parameters (data st);
          Rounded.observables_ := to_rows (observables_ (data st));
          Rounded.residuals := to_rows (residuals (data st)) |} |}.

Lemma exact_loop_is_an_instance
      (st : State Params Snapshot Stepper World Bytes) :
  Rounded.loop_step
    Params Snapshot Stepper World Q (string -> Q) (World -> Cx.Vec -> Q)
    unfreeze exact_add exact_sub (normFunction World S_dot) exact_step
    (fun w => Some (get_residuals w)) exact_measure
    (fun o k => Some (o k)) (fun _ _ _ _ _ => true)
    tmax H observables (to_rounded st)
  = match loop_step Params Snapshot Stepper World Bytes unfreeze S_dot
                    stepper_step get_residuals measure tmax H observables st
    with
    | Next s => Rounded.Next (to_rounded s)
    | Exit => Rounded.Exit
    | Fault => Rounded.Fault (to_rounded st)
    end.
Proof.
  unfold Rounded.loop_step, loop_step, Rounded.loop_body, loop_body,
    exact_step, exact_measure.
  cbn [Rounded.t Rounded.stepper Rounded.world Rounded.psi Rounded.data
       to_rounded Py.float_ltb].
  fold (Py.ltb (t st) tmax).
  destruct (Py.ltb (t st) tmax); [|reflexivity].
  destruct (stepper_step (stepper st) (world st) (t st) (psi st) H
                         (normFunction World S_dot))
    as [[[[dp d] stp'] w1]|]; [|reflexivity].
  destruct (get_residuals w1) as [tdvpErr linEqRes].
  destruct (measure observables dp w1) as [obs w2].
  unfold to_rounded, to_rows. cbn. rewrite !map_app. reflexivity.
Qed.

End ExactLoop.
